(** * ginapi: language negotiation, short identifiers and pagination

    A shallow embedding of the Go packages [ids], [pagination] and
    [middleware] (language.go) of doujins-org/ginapi, with the properties
    the specification states about them.

    Go values are modelled as follows.
    - [string]: a Go string is a byte sequence, here Rocq's [string] (a
      list of 8-bit [ascii]).  The functions of Go's [strings] package are
      written out on bytes.  [ToLower] and [TrimSpace] have a fast path for
      ASCII text, which is written out, and hand text with bytes above 127
      to the [unicode] package, which is the class [Unicode].
    - [int], [int64]: [Z]; the only arithmetic in the modelled code is the
      accumulation in [decodeBase62], whose wrap-around is written out.
    - [float64]: the kernel's binary64 [float].
    - [map[string]struct{}]: stdpp's [gset string]; [map[string]any]:
      [gmap string GoValue].
    - pointers that the code tests against nil ([*gin.Context],
      [*http.Request]): [option]; a nil dereference is the [Panic] result.
    - library functions whose result is not computed here are fields of a
      class and the theorems hold for every instance: [ParseFloat] of
      strconv, [Parse] of net/url. *)

From Stdlib Require Import ZArith Lia Floats Uint63 Ascii String.
From stdpp Require Import base option list gmap strings pretty.

Open Scope string_scope.
Open Scope Z_scope.

(** ** Go's [strings] package *)

Module GoStrings.

Definition isUpper (c : ascii) : bool :=
  let n := N_of_ascii c in (65 <=? n)%N && (n <=? 90)%N.

Definition lowerByte (c : ascii) : ascii :=
  if isUpper c then ascii_of_N (N_of_ascii c + 32) else c.

(** c < utf8.RuneSelf *)
Definition isASCIIByte (c : ascii) : bool := (N_of_ascii c <? 128)%N.

Fixpoint isASCII (s : string) : bool :=
  match s with
  | EmptyString => true
  | String c r => isASCIIByte c && isASCII r
  end.

(** The ASCII path of strings.ToLower: 'A'..'Z' become 'a'..'z'. *)
Fixpoint lowerASCII (s : string) : string :=
  match s with
  | EmptyString => EmptyString
  | String c r => String (lowerByte c) (lowerASCII r)
  end.

(** '\t', '\n', '\v', '\f', '\r', ' ' *)
Definition isSpace (c : ascii) : bool :=
  let n := N_of_ascii c in ((9 <=? n)%N && (n <=? 13)%N) || (n =? 32)%N.

Fixpoint TrimLeftSpace (s : string) : string :=
  match s with
  | EmptyString => EmptyString
  | String c r => if isSpace c then TrimLeftSpace r else s
  end.

Fixpoint TrimRightSpace (s : string) : string :=
  match s with
  | EmptyString => EmptyString
  | String c r =>
      match TrimRightSpace r with
      | EmptyString => if isSpace c then EmptyString else String c EmptyString
      | r' => String c r'
      end
  end.

(** s[0] >= utf8.RuneSelf and s[len(s)-1] >= utf8.RuneSelf, false for "" *)
Definition startsNonASCII (s : string) : bool :=
  match s with
  | EmptyString => false
  | String c _ => negb (isASCIIByte c)
  end.

Fixpoint endsNonASCII (s : string) : bool :=
  match s with
  | EmptyString => false
  | String c EmptyString => negb (isASCIIByte c)
  | String _ r => endsNonASCII r
  end.

(** What [strings] asks of the [unicode] package on text that is not
    ASCII.  [MapToLower s] is strings.Map(unicode.ToLower, s),
    [TrimFuncIsSpace s] is strings.TrimFunc(s, unicode.IsSpace) and
    [TrimRightFuncIsSpace s] is strings.TrimRightFunc(s, unicode.IsSpace).
    The one law: lower-casing text that is already lower-cased leaves it
    as it is. *)
Class Unicode : Type := {
  MapToLower : string -> string;
  TrimFuncIsSpace : string -> string;
  TrimRightFuncIsSpace : string -> string;
  MapToLower_lower : forall s,
    (if isASCII (MapToLower s) then lowerASCII (MapToLower s)
     else MapToLower (MapToLower s)) = MapToLower s;
}.

(** strings.ToLower: the byte map on ASCII text, unicode.ToLower on every
    rune otherwise. *)
Definition ToLower {unicode : Unicode} (s : string) : string :=
  if isASCII s then lowerASCII s else MapToLower s.

(** strings.TrimSpace: ASCII white space is stripped from the left up to
    the first other byte; if that byte is not ASCII the rest is trimmed by
    unicode.IsSpace on both sides.  Then the same from the right. *)
Definition TrimSpace {unicode : Unicode} (s : string) : string :=
  let s := TrimLeftSpace s in
  if startsNonASCII s then TrimFuncIsSpace s
  else
    let s := TrimRightSpace s in
    if endsNonASCII s then TrimRightFuncIsSpace s else s.

(** len(s) *)
Definition len (s : string) : Z := Z.of_nat (String.length s).

(** s[n:] and s[:n] for 0 <= n <= len(s) *)
Fixpoint sliceFrom (n : nat) (s : string) : string :=
  match n, s with
  | O, _ => s
  | S n', String _ r => sliceFrom n' r
  | S _, EmptyString => EmptyString
  end.

Fixpoint sliceTo (n : nat) (s : string) : string :=
  match n, s with
  | O, _ => EmptyString
  | S n', String c r => String c (sliceTo n' r)
  | S _, EmptyString => EmptyString
  end.

(** strings.HasPrefix *)
Fixpoint HasPrefix (s prefix : string) {struct prefix} : bool :=
  match prefix, s with
  | EmptyString, _ => true
  | String a p, String b r => Ascii.eqb a b && HasPrefix r p
  | String _ _, EmptyString => false
  end.

(** strings.HasSuffix: len(s) >= len(suffix) && s[len(s)-len(suffix):] == suffix *)
Definition HasSuffix (s suffix : string) : bool :=
  (String.length suffix <=? String.length s)%nat
  && String.eqb (sliceFrom (String.length s - String.length suffix) s) suffix.

(** strings.TrimPrefix *)
Definition TrimPrefix (s prefix : string) : string :=
  if HasPrefix s prefix then sliceFrom (String.length prefix) s else s.

(** strings.Index: the position of the first occurrence, or -1 *)
Fixpoint IndexFrom (s substr : string) (i : nat) : option nat :=
  if HasPrefix s substr then Some i
  else match s with
       | EmptyString => None
       | String _ r => IndexFrom r substr (S i)
       end.

Definition Index (s substr : string) : option nat := IndexFrom s substr 0.

(** strings.IndexRune for a one-byte rune, as an int *)
Fixpoint IndexByteFrom (s : string) (c : ascii) (i : Z) : Z :=
  match s with
  | EmptyString => -1
  | String b r => if Ascii.eqb b c then i else IndexByteFrom r c (i + 1)
  end.

Definition IndexRune (s : string) (c : ascii) : Z := IndexByteFrom s c 0.

(** strings.Split(s, sep) for a one-byte separator *)
Fixpoint Split (s : string) (sep : ascii) : list string :=
  match s with
  | EmptyString => [EmptyString]
  | String c r =>
      if Ascii.eqb c sep then EmptyString :: Split r sep
      else match Split r sep with
           | h :: t => String c h :: t
           | [] => [String c EmptyString]
           end
  end.

(** strings.SplitN(s, sep, n) for a one-byte separator and n >= 0 *)
Fixpoint SplitN (s : string) (sep : ascii) (n : nat) : list string :=
  match n with
  | O => []
  | S O => [s]
  | S n' =>
      match s with
      | EmptyString => [EmptyString]
      | String c r =>
          if Ascii.eqb c sep then EmptyString :: SplitN r sep n'
          else match SplitN r sep n with
               | h :: t => String c h :: t
               | [] => [String c EmptyString]
               end
      end
  end.

(** s[i] *)
Fixpoint byteAt (s : string) (i : nat) : option ascii :=
  match s, i with
  | EmptyString, _ => None
  | String c _, O => Some c
  | String _ r, S i' => byteAt r i'
  end.

Lemma lowerByte_idem c : lowerByte (lowerByte c) = lowerByte c.
Proof.
  destruct c as [[] [] [] [] [] [] [] []]; reflexivity.
Qed.

Lemma lowerByte_ascii c : isASCIIByte (lowerByte c) = isASCIIByte c.
Proof.
  destruct c as [[] [] [] [] [] [] [] []]; reflexivity.
Qed.

Lemma lowerASCII_idem s : lowerASCII (lowerASCII s) = lowerASCII s.
Proof.
  induction s as [|c r IH]; simpl; [reflexivity|].
  now rewrite lowerByte_idem, IH.
Qed.

Lemma lowerASCII_ascii s : isASCII (lowerASCII s) = isASCII s.
Proof.
  induction s as [|c r IH]; simpl; [reflexivity|].
  now rewrite lowerByte_ascii, IH.
Qed.

Lemma lowerASCII_length s : String.length (lowerASCII s) = String.length s.
Proof. induction s; simpl; congruence. Qed.

Section Lower.
Context {unicode : Unicode}.

Lemma ToLower_ascii s : isASCII s = true -> ToLower s = lowerASCII s.
Proof. unfold ToLower. now intros ->. Qed.

Lemma ToLower_idem s : ToLower (ToLower s) = ToLower s.
Proof.
  unfold ToLower at 2 3. destruct (isASCII s) eqn:Hs.
  - unfold ToLower. now rewrite lowerASCII_ascii, Hs, lowerASCII_idem.
  - unfold ToLower. apply MapToLower_lower.
Qed.

End Lower.

Lemma append_nil_l s : "" +:+ s = s.
Proof. reflexivity. Qed.

Lemma append_cons c p s : String c p +:+ s = String c (p +:+ s).
Proof. reflexivity. Qed.

Lemma HasPrefix_app p s : HasPrefix (p +:+ s) p = true.
Proof.
  induction p as [|c p IH]; [reflexivity|].
  rewrite append_cons. simpl. now rewrite Ascii.eqb_refl, IH.
Qed.

Lemma sliceFrom_app p s : sliceFrom (String.length p) (p +:+ s) = s.
Proof.
  induction p as [|c p IH]; [reflexivity|].
  rewrite append_cons. simpl. exact IH.
Qed.

Lemma TrimPrefix_app p s : TrimPrefix (p +:+ s) p = s.
Proof. unfold TrimPrefix. now rewrite HasPrefix_app, sliceFrom_app. Qed.

Lemma append_empty_r (a : string) : a +:+ "" = a.
Proof.
  induction a as [|x a IH]; [reflexivity|].
  rewrite append_cons. now rewrite IH.
Qed.

Lemma sliceTo_sliceFrom (n : nat) (s : string) : sliceTo n s +:+ sliceFrom n s = s.
Proof.
  revert s. induction n as [|n IH]; intros s; [reflexivity|].
  destruct s as [|c r]; [reflexivity|].
  simpl. rewrite append_cons. now rewrite IH.
Qed.

End GoStrings.

(** ** Go's [path] package *)

Module GoPath.
Import GoStrings.

(** strings.Join(elems, "/") *)
Fixpoint joinSlash (elems : list string) : string :=
  match elems with
  | [] => ""
  | [e] => e
  | e :: rest => (e +:+ "/") +:+ joinSlash rest
  end.

(** One turn of the loop of path.Clean, on the elements written so far.
    An empty element and "." are dropped; ".." takes the last element
    back, unless nothing is left to take back: then a rooted path drops
    it and another path keeps it (a leading run of ".." elements, which
    nothing takes back); any other element is written. *)
Definition cleanStep (rooted : bool) (out : list string) (elem : string) : list string :=
  if String.eqb elem "" || String.eqb elem "." then out
  else if String.eqb elem ".." then
    match last out with
    | Some e =>
        if String.eqb e ".." then (if rooted then out else out ++ [".."])
        else removelast out
    | None => if rooted then out else out ++ [".."]
    end
  else out ++ [elem].

(** path.Clean: the shortest path equivalent to [path] by purely lexical
    processing. *)
Definition Clean (path : string) : string :=
  if String.eqb path "" then "."
  else
    let rooted := HasPrefix path "/" in
    let out := foldl (cleanStep rooted) [] (GoStrings.Split path "/"%char) in
    if rooted then "/" +:+ joinSlash out
    else match out with
         | [] => "."
         | _ => joinSlash out
         end.

(** path.Split: the text up to and including the last '/', and the rest. *)
Fixpoint Split (path : string) : string * string :=
  match path with
  | EmptyString => (EmptyString, EmptyString)
  | String c r =>
      let '(dir, file) := Split r in
      if negb (String.eqb dir "") then (String c dir, file)
      else if Ascii.eqb c "/" then ("/", file)
      else ("", String c file)
  end.

Example Clean_double_slash : Clean "/en//galleries" = "/en/galleries".
Proof. reflexivity. Qed.

Example Clean_dot_dot : Clean "/en/.." = "/".
Proof. reflexivity. Qed.

Example Clean_dots : Clean "/a/./b/../../c/" = "/c".
Proof. reflexivity. Qed.

Example Clean_unrooted : Clean "a/../../b" = "../b".
Proof. reflexivity. Qed.

Example Clean_clean : Clean "/ja/galleries" = "/ja/galleries".
Proof. reflexivity. Qed.

Example Split_dir : Split "/a/b/c.html" = ("/a/b/", "c.html").
Proof. reflexivity. Qed.

End GoPath.

(** ** Package ids (ids/ids.go) *)

Module ids.
Import GoStrings.

Definition base62Chars : string :=
  "0123456789ABCDEFGHIJKLMNOPQRSTUVWXYZabcdefghijklmnopqrstuvwxyz".

(** The values of an int64, and the wrap-around of its arithmetic. *)
Definition is_int64 (z : Z) : Prop := - 2 ^ 63 <= z < 2 ^ 63.

Definition wrap64 (z : Z) : Z := (z + 2 ^ 63) mod 2 ^ 64 - 2 ^ 63.

(** The two errors of the package (fmt.Errorf values). *)
Inductive error : Type :=
  | errInvalidPrefix (expected got : string)
  | errInvalidChar (c : ascii).

(** base62Chars[i]; the index is in range at its only use. *)
Definition charAt (i : Z) : ascii :=
  default "000"%char (byteAt base62Chars (Z.to_nat i)).

(** The loop [for num > 0 { result = chars[num%62] + result; num /= 62 }].
    Go's [%] and [/] truncate: [Z.rem] and [Z.quot]. *)
Fixpoint encodeLoop (fuel : nat) (num : Z) (result : string) : string :=
  match fuel with
  | O => result
  | S fuel' =>
      if 0 <? num
      then encodeLoop fuel' (Z.quot num 62) (String (charAt (Z.rem num 62)) result)
      else result
  end.

(** Iterations that the loop can take on [num]: one per bit is enough. *)
Definition encodeFuel (num : Z) : nat := S (Z.to_nat (Z.log2 num)).

Definition encodeBase62 (num : Z) : string :=
  if num =? 0 then "0" else encodeLoop (encodeFuel num) num "".

(** [for _, c := range s { idx := IndexRune(chars, c); ...; result = result*62 + idx }] *)
Fixpoint decodeLoop (s : string) (result : Z) : Z * option error :=
  match s with
  | EmptyString => (result, None)
  | String c r =>
      let idx := IndexRune base62Chars c in
      if idx =? -1 then (0, Some (errInvalidChar c))
      else decodeLoop r (wrap64 (result * 62 + idx))
  end.

Definition decodeBase62 (s : string) : Z * option error := decodeLoop s 0.

Definition Format (prefix : string) (id : Z) : string :=
  (prefix +:+ "_") +:+ encodeBase62 id.

Definition Parse (prefix prefixedID : string) : Z * option error :=
  let expectedPrefix := prefix +:+ "_" in
  if negb (HasPrefix prefixedID expectedPrefix)
  then (0, Some (errInvalidPrefix expectedPrefix prefixedID))
  else
    let encoded := TrimPrefix prefixedID expectedPrefix in
    decodeBase62 encoded.

(** *** Digits *)

Lemma IndexRune_charAt_nat (k : nat) :
  (k < 62)%nat -> IndexRune base62Chars (charAt (Z.of_nat k)) = Z.of_nat k.
Proof.
  intros Hk.
  do 62 (destruct k as [|k]; [vm_compute; reflexivity|]).
  lia.
Qed.

Lemma IndexRune_charAt (d : Z) :
  0 <= d < 62 -> IndexRune base62Chars (charAt d) = d.
Proof.
  intros Hd.
  rewrite <- (Z2Nat.id d) by lia.
  apply IndexRune_charAt_nat. lia.
Qed.

Lemma wrap64_id (z : Z) : is_int64 z -> wrap64 z = z.
Proof.
  unfold is_int64, wrap64. intros Hz.
  rewrite Z.mod_small by lia. lia.
Qed.

(** *** The loop leaves by its guard, not by the fuel *)

Lemma encodeLoop_more_fuel (f f' : nat) :
  forall num result,
    num < 62 ^ Z.of_nat f -> (f <= f')%nat ->
    encodeLoop f' num result = encodeLoop f num result.
Proof.
  revert f'. induction f as [|f IH]; intros f' num result Hnum Hle.
  - destruct f' as [|f']; [reflexivity|]. simpl.
    replace (0 <? num) with false; [reflexivity|].
    symmetry. apply Z.ltb_ge. simpl in Hnum. lia.
  - destruct f' as [|f']; [lia|]. simpl.
    destruct (0 <? num) eqn:Hpos; [|reflexivity].
    apply Z.ltb_lt in Hpos.
    apply IH; [|lia].
    rewrite Nat2Z.inj_succ, Z.pow_succ_r in Hnum by lia.
    apply Z.quot_lt_upper_bound; lia.
Qed.

Lemma encodeFuel_enough (num : Z) : 0 < num -> num < 62 ^ Z.of_nat (encodeFuel num).
Proof.
  intros Hpos. unfold encodeFuel.
  rewrite Nat2Z.inj_succ, Z2Nat.id by apply Z.log2_nonneg.
  pose proof (Z.log2_spec num Hpos) as [_ Hlt].
  eapply Z.lt_le_trans; [exact Hlt|].
  apply Z.pow_le_mono_l. pose proof (Z.log2_nonneg num). lia.
Qed.

(** *** Decoding what the loop wrote *)

Lemma decode_encodeLoop (f : nat) :
  forall num result,
    0 <= num < 2 ^ 63 -> num < 62 ^ Z.of_nat f ->
    decodeLoop (encodeLoop f num result) 0 = decodeLoop result num.
Proof.
  induction f as [|f IH]; intros num result Hrange Hfuel.
  - simpl in *. replace num with 0 by lia. reflexivity.
  - simpl. destruct (0 <? num) eqn:Hpos.
    + apply Z.ltb_lt in Hpos.
      assert (Hq : 0 <= Z.quot num 62 < 2 ^ 63).
      { split; [apply Z.quot_pos; lia|].
        apply Z.quot_lt_upper_bound; lia. }
      assert (Hr : 0 <= Z.rem num 62 < 62) by (apply Z.rem_bound_pos; lia).
      rewrite IH; [|exact Hq|].
      * simpl. rewrite IndexRune_charAt by exact Hr.
        replace (Z.rem num 62 =? -1) with false
          by (symmetry; apply Z.eqb_neq; lia).
        replace (Z.quot num 62 * 62 + Z.rem num 62) with num
          by (rewrite (Z.quot_rem' num 62) at 1; lia).
        rewrite wrap64_id; [reflexivity|unfold is_int64; lia].
      * rewrite Nat2Z.inj_succ, Z.pow_succ_r in Hfuel by lia.
        apply Z.quot_lt_upper_bound; lia.
    + apply Z.ltb_ge in Hpos. replace num with 0 by lia. reflexivity.
Qed.

Lemma decode_encodeBase62 (num : Z) :
  0 <= num < 2 ^ 63 -> decodeBase62 (encodeBase62 num) = (num, None).
Proof.
  intros Hrange. unfold encodeBase62, decodeBase62.
  destruct (num =? 0) eqn:Hz.
  - apply Z.eqb_eq in Hz. subst num. reflexivity.
  - apply Z.eqb_neq in Hz.
    rewrite decode_encodeLoop; [reflexivity|exact Hrange|].
    apply encodeFuel_enough. lia.
Qed.

(** A negative number has no digits at all. *)
Lemma encodeBase62_negative (num : Z) : num < 0 -> encodeBase62 num = "".
Proof.
  intros Hneg. unfold encodeBase62.
  replace (num =? 0) with false by (symmetry; apply Z.eqb_neq; lia).
  unfold encodeFuel. simpl.
  replace (0 <? num) with false by (symmetry; apply Z.ltb_ge; lia).
  reflexivity.
Qed.

Example format_123 : Format "usr" 123 = "usr_1z".
Proof. reflexivity. Qed.

Example format_0 : Format "gal" 0 = "gal_0".
Proof. reflexivity. Qed.

Example parse_wrong_prefix :
  Parse "pay" "usr_123" = (0, Some (errInvalidPrefix "pay_" "usr_123")).
Proof. reflexivity. Qed.

(** C9, as amended: for every prefix and every non-negative int64 id,
    parsing the formatted id succeeds and gives the id back. *)
Theorem parse_format_roundtrip (prefix : string) (id : Z) :
  0 <= id < 2 ^ 63 -> Parse prefix (Format prefix id) = (id, None).
Proof.
  intros Hid. unfold Parse, Format.
  rewrite HasPrefix_app, TrimPrefix_app. simpl.
  apply decode_encodeBase62. exact Hid.
Qed.

Lemma parse_format_roundtrip_witness :
  Parse "sub" (Format "sub" 999999) = (999999, None).
Proof. apply (parse_format_roundtrip "sub" 999999). lia. Defined.

(** C9 as stated fails on a negative id: [encodeBase62] writes no digit,
    and the empty digit string decodes to 0 without an error. *)
Lemma parse_format_negative :
  Format "pay" (-1) = "pay_" /\ Parse "pay" (Format "pay" (-1)) = (0, None).
Proof. split; reflexivity. Qed.

(** *** The rest of the package: string ids, the formatter, parameters *)

(** The error of ParseString, whose message names the expected prefix only. *)
Inductive stringError : Type :=
  | errExpectedPrefix (expected : string).

Definition FormatString (prefix id : string) : string :=
  (prefix +:+ "_") +:+ id.

Definition ParseString (prefix prefixedID : string) : string * option stringError :=
  let expectedPrefix := prefix +:+ "_" in
  if negb (HasPrefix prefixedID expectedPrefix)
  then ("", Some (errExpectedPrefix expectedPrefix))
  else (TrimPrefix prefixedID expectedPrefix, None).

Definition FormatInt64 (prefix : string) (id : Z) : string := Format prefix id.

(** [int64(id)] is the identity on a 64-bit int. *)
Definition FormatInt (prefix : string) (id : Z) : string := Format prefix id.

Definition ParseInt64 (prefix prefixedID : string) : Z * option error :=
  Parse prefix prefixedID.

(** A call that returns or panics with the error. *)
Inductive outcome : Type :=
  | Returned (id : Z)
  | Panicked (err : error).

Definition MustParse (prefix prefixedID : string) : outcome :=
  match Parse prefix prefixedID with
  | (_, Some err) => Panicked err
  | (id, None) => Returned id
  end.

Record Formatter : Type := mkFormatter { Prefix : string }.

Definition NewFormatter (prefix : string) : Formatter := mkFormatter prefix.

Definition Formatter_Format (f : Formatter) (id : Z) : string :=
  Format (Prefix f) id.

Definition Formatter_Parse (f : Formatter) (prefixedID : string) : Z * option error :=
  Parse (Prefix f) prefixedID.

(** The error of ParseIntParam: the package's own or strconv's. *)
Inductive paramError (E : Type) : Type :=
  | idsError (e : error)
  | strconvError (e : E).
Arguments idsError {E} e.
Arguments strconvError {E} e.

Section IntParam.
(** strconv.ParseInt(s, 10, 64), with its error type. *)
Variable E : Type.
Variable ParseInt : string -> Z * option E.

Definition ParseIntParam (prefix param : string) : Z * option (paramError E) :=
  if HasPrefix param (prefix +:+ "_")
  then let '(id, err) := Parse prefix param in (id, option_map idsError err)
  else let '(id, err) := ParseInt param in (id, option_map strconvError err).

End IntParam.

(** The bytes of the alphabet, and the number that a digit string denotes. *)
Definition isBase62 (c : ascii) : bool := negb (IndexRune base62Chars c =? -1).

Fixpoint allBase62 (s : string) : bool :=
  match s with
  | EmptyString => true
  | String c r => isBase62 c && allBase62 r
  end.

Fixpoint valueFrom (s : string) (a : Z) : Z :=
  match s with
  | EmptyString => a
  | String c r => valueFrom r (a * 62 + IndexRune base62Chars c)
  end.

Definition base62Value (s : string) : Z := valueFrom s 0.

(** A digit string as encodeBase62 writes it: not empty, over the alphabet,
    without a leading zero unless it is "0". *)
Definition canonical (s : string) : Prop :=
  allBase62 s = true /\ (s = "0" \/ exists c r, s = String c r /\ c <> "0"%char).

Lemma HasPrefix_true_iff (s p : string) :
  HasPrefix s p = true <-> exists r, s = p +:+ r.
Proof.
  revert s. induction p as [|a p IH]; intros s.
  - split; [intros _; exists s; reflexivity | reflexivity].
  - destruct s as [|b s]; simpl.
    + split; [discriminate|]. intros [r Hr]. rewrite append_cons in Hr. discriminate.
    + rewrite andb_true_iff, Ascii.eqb_eq, IH. split.
      * intros [-> [r ->]]. exists r. now rewrite append_cons.
      * intros [r Hr]. rewrite append_cons in Hr. injection Hr as -> ->.
        split; [reflexivity|]. now exists r.
Qed.

Lemma IndexByteFrom_range (s : string) (c : ascii) (i : Z) :
  IndexByteFrom s c i = -1 \/ i <= IndexByteFrom s c i < i + Z.of_nat (String.length s).
Proof.
  revert i. induction s as [|b s IH]; intros i; simpl; [now left|].
  destruct (Ascii.eqb b c); [right; lia|].
  destruct (IH (i + 1)) as [H|H]; [now left | right; lia].
Qed.

Lemma isBase62_range (c : ascii) :
  isBase62 c = true -> 0 <= IndexRune base62Chars c < 62.
Proof.
  unfold isBase62, IndexRune. rewrite negb_true_iff, Z.eqb_neq. intros Hne.
  destruct (IndexByteFrom_range base62Chars c 0) as [H|H]; [contradiction|].
  exact H.
Qed.

Lemma isBase62_charAt (d : Z) : 0 <= d < 62 -> isBase62 (charAt d) = true.
Proof.
  intros Hd. unfold isBase62. rewrite (IndexRune_charAt d Hd).
  apply negb_true_iff, Z.eqb_neq. lia.
Qed.

Lemma charAt_IndexRune (c : ascii) :
  isBase62 c = true -> charAt (IndexRune base62Chars c) = c.
Proof.
  destruct c as [[] [] [] [] [] [] [] []]; vm_compute; intros H;
    first [reflexivity | discriminate].
Qed.

Lemma charAt_zero (d : Z) : 0 <= d < 62 -> charAt d = "0"%char -> d = 0.
Proof.
  intros Hd Hc. rewrite <- (IndexRune_charAt d Hd), Hc. reflexivity.
Qed.

(** *** Decoding: errors and values *)

Lemma decodeLoop_error_iff (s : string) (a : Z) :
  snd (decodeLoop s a) = None <-> allBase62 s = true.
Proof.
  revert a. induction s as [|c s IH]; intros a; simpl; [tauto|].
  unfold isBase62. destruct (IndexRune base62Chars c =? -1); simpl.
  - split; discriminate.
  - apply IH.
Qed.

Lemma decodeLoop_error_value (s : string) (a : Z) :
  snd (decodeLoop s a) <> None -> fst (decodeLoop s a) = 0.
Proof.
  revert a. induction s as [|c s IH]; intros a; simpl; [congruence|].
  destruct (IndexRune base62Chars c =? -1); simpl; [reflexivity|apply IH].
Qed.

Lemma valueFrom_ge (s : string) (a : Z) :
  allBase62 s = true -> 0 <= a -> a <= valueFrom s a.
Proof.
  revert a. induction s as [|c s IH]; intros a Hs Ha; simpl in *; [lia|].
  apply andb_true_iff in Hs as [Hc Hs].
  pose proof (isBase62_range c Hc).
  etransitivity; [|apply IH; [exact Hs|lia]]. lia.
Qed.

Lemma decodeLoop_value (s : string) (a : Z) :
  allBase62 s = true -> 0 <= a -> valueFrom s a < 2 ^ 63 ->
  decodeLoop s a = (valueFrom s a, None).
Proof.
  revert a. induction s as [|c s IH]; intros a Hs Ha Hv; simpl in *; [reflexivity|].
  apply andb_true_iff in Hs as [Hc Hs].
  pose proof (isBase62_range c Hc) as Hr.
  replace (IndexRune base62Chars c =? -1) with false
    by (symmetry; apply Z.eqb_neq; lia).
  assert (Hle : a * 62 + IndexRune base62Chars c <= valueFrom s (a * 62 + IndexRune base62Chars c))
    by (apply valueFrom_ge; [exact Hs|lia]).
  rewrite wrap64_id by (unfold is_int64; lia).
  apply IH; [exact Hs|lia|exact Hv].
Qed.

(** *** Encoding, one digit at a time *)

Lemma encodeFuel_enough_nonneg (num : Z) :
  0 <= num -> num < 62 ^ Z.of_nat (encodeFuel num).
Proof.
  intros Hn. destruct (Z.eq_dec num 0) as [->|Hne]; [reflexivity|].
  apply encodeFuel_enough. lia.
Qed.

Lemma encodeLoop_fuel_indep (f1 f2 : nat) (num : Z) (result : string) :
  num < 62 ^ Z.of_nat f1 -> num < 62 ^ Z.of_nat f2 ->
  encodeLoop f1 num result = encodeLoop f2 num result.
Proof.
  intros H1 H2.
  rewrite <- (encodeLoop_more_fuel f1 (max f1 f2) num result H1) by lia.
  apply encodeLoop_more_fuel; [exact H2|lia].
Qed.

(** The loop on its own fuel. *)
Definition enc (num : Z) (result : string) : string :=
  encodeLoop (encodeFuel num) num result.

Lemma enc_nonpos (num : Z) (result : string) : num <= 0 -> enc num result = result.
Proof.
  intros Hn. unfold enc, encodeFuel. simpl.
  replace (0 <? num) with false by (symmetry; apply Z.ltb_ge; lia).
  reflexivity.
Qed.

Lemma enc_pos (num : Z) (result : string) :
  0 < num ->
  enc num result = enc (Z.quot num 62) (String (charAt (Z.rem num 62)) result).
Proof.
  intros Hn. unfold enc at 1.
  pose proof (encodeFuel_enough num Hn) as Hfuel.
  unfold encodeFuel in *. simpl encodeLoop.
  replace (0 <? num) with true by (symmetry; apply Z.ltb_lt; lia).
  assert (Hq : 0 <= Z.quot num 62) by (apply Z.quot_pos; lia).
  apply encodeLoop_fuel_indep.
  - rewrite Nat2Z.inj_succ, Z.pow_succ_r in Hfuel by lia.
    apply Z.quot_lt_upper_bound; lia.
  - apply (encodeFuel_enough_nonneg _ Hq).
Qed.

Lemma encodeBase62_enc (num : Z) :
  encodeBase62 num = if num =? 0 then "0" else enc num "".
Proof. reflexivity. Qed.

Lemma enc_digits (num : Z) :
  0 <= num ->
  forall result, allBase62 result = true ->
    allBase62 (enc num result) = true
    /\ (0 < num -> exists c r, enc num result = String c r /\ c <> "0"%char).
Proof.
  intros Hnum. pattern num. apply Zlt_0_ind; [|exact Hnum].
  clear num Hnum. intros n IH Hn result Hres.
  destruct (Z.eq_dec n 0) as [->|Hne].
  - rewrite enc_nonpos by lia. split; [exact Hres|lia].
  - assert (Hpos : 0 < n) by lia.
    rewrite (enc_pos n result Hpos).
    assert (Hr : 0 <= Z.rem n 62 < 62) by (apply Z.rem_bound_pos; lia).
    assert (Hq : 0 <= Z.quot n 62 < n).
    { split; [apply Z.quot_pos; lia|apply Z.quot_lt; lia]. }
    assert (Hres' : allBase62 (String (charAt (Z.rem n 62)) result) = true).
    { simpl. now rewrite (isBase62_charAt _ Hr), Hres. }
    destruct (IH (Z.quot n 62) Hq _ Hres') as [Hall Hlead].
    split; [exact Hall|]. intros _.
    destruct (Z.eq_dec (Z.quot n 62) 0) as [Hz|Hnz].
    + rewrite Hz, enc_nonpos by lia.
      exists (charAt (Z.rem n 62)), result. split; [reflexivity|].
      intros Hc. apply (charAt_zero _ Hr) in Hc.
      pose proof (Z.quot_rem' n 62). lia.
    + apply Hlead. lia.
Qed.

Lemma encodeBase62_canonical (num : Z) : 0 <= num -> canonical (encodeBase62 num).
Proof.
  intros Hn. rewrite encodeBase62_enc. unfold canonical.
  destruct (num =? 0) eqn:Hz.
  - split; [reflexivity|now left].
  - apply Z.eqb_neq in Hz.
    destruct (enc_digits num Hn "" eq_refl) as [Hall Hlead].
    split; [exact Hall|]. right. apply Hlead. lia.
Qed.

(** Reading digits and writing them back. *)
Lemma enc_valueFrom (s : string) :
  forall a result, allBase62 s = true -> 0 < a ->
    enc (valueFrom s a) result = enc a (s +:+ result).
Proof.
  induction s as [|c s IH]; intros a result Hs Ha; simpl in *; [reflexivity|].
  apply andb_true_iff in Hs as [Hc Hs].
  pose proof (isBase62_range c Hc) as Hr.
  rewrite IH by (try exact Hs; lia).
  rewrite enc_pos by lia.
  replace (Z.quot (a * 62 + IndexRune base62Chars c) 62) with a.
  - replace (Z.rem (a * 62 + IndexRune base62Chars c) 62)
      with (IndexRune base62Chars c).
    + rewrite (charAt_IndexRune c Hc). now rewrite append_cons.
    + symmetry. rewrite Z.rem_mod_nonneg by lia.
      rewrite Z.add_comm, Z.mod_add by lia. apply Z.mod_small. lia.
  - symmetry. rewrite Z.quot_div_nonneg by lia.
    rewrite Z.add_comm, Z.div_add by lia. rewrite Z.div_small by lia. lia.
Qed.

Lemma encodeBase62_base62Value (s : string) :
  canonical s -> encodeBase62 (base62Value s) = s.
Proof.
  intros [Hall [-> | (c & r & -> & Hc)]]; [reflexivity|].
  simpl in Hall. apply andb_true_iff in Hall as [Hb Hr].
  pose proof (isBase62_range c Hb) as Hrange.
  assert (Hd : 0 < IndexRune base62Chars c).
  { destruct (Z.eq_dec (IndexRune base62Chars c) 0) as [Hz|]; [|lia].
    exfalso. apply Hc. rewrite <- (charAt_IndexRune c Hb), Hz. reflexivity. }
  rewrite encodeBase62_enc. unfold base62Value.
  change (valueFrom (String c r) 0)
    with (valueFrom r (0 * 62 + IndexRune base62Chars c)).
  rewrite Z.mul_0_l, Z.add_0_l.
  pose proof (valueFrom_ge r _ Hr (Z.lt_le_incl _ _ Hd)) as Hge.
  replace (valueFrom r (IndexRune base62Chars c) =? 0) with false
    by (symmetry; apply Z.eqb_neq; lia).
  rewrite (enc_valueFrom r _ "" Hr Hd).
  rewrite enc_pos by exact Hd.
  rewrite Z.quot_small, Z.rem_small by lia.
  rewrite enc_nonpos by lia.
  rewrite (charAt_IndexRune c Hb). now rewrite append_empty_r.
Qed.

Lemma Parse_prefixed (prefix digits : string) :
  Parse prefix ((prefix +:+ "_") +:+ digits) = decodeBase62 digits.
Proof.
  unfold Parse. now rewrite HasPrefix_app, TrimPrefix_app.
Qed.

Lemma allBase62_underscore (a e : string) :
  allBase62 ((a +:+ "_") +:+ e) = false.
Proof.
  induction a as [|y a IH].
  - reflexivity.
  - rewrite !append_cons. simpl. rewrite IH. apply andb_false_r.
Qed.

(** Two ids with digit strings over the alphabet split at the same place. *)
Lemma prefixed_split (a a' e e' : string) :
  allBase62 e = true -> allBase62 e' = true ->
  (a +:+ "_") +:+ e = (a' +:+ "_") +:+ e' -> a = a' /\ e = e'.
Proof.
  intros He He'. revert a'. induction a as [|x a IH]; intros [|x' a'] Heq.
  - change (String "_" e = String "_" e') in Heq. injection Heq as ->. now split.
  - rewrite !append_cons in Heq.
    change (String "_" e = String x' ((a' +:+ "_") +:+ e')) in Heq.
    injection Heq as _ Heq. rewrite Heq, allBase62_underscore in He. discriminate.
  - rewrite !append_cons in Heq.
    change (String x ((a +:+ "_") +:+ e) = String "_" e') in Heq.
    injection Heq as _ Heq. rewrite <- Heq, allBase62_underscore in He'. discriminate.
  - rewrite !append_cons in Heq. injection Heq as -> Heq.
    destruct (IH a' Heq) as [-> ->]. now split.
Qed.

(** X1: ParseString gives back any string id that FormatString wrote,
    whatever the prefix and the id are. *)
Theorem ParseString_FormatString (prefix id : string) :
  ParseString prefix (FormatString prefix id) = (id, None).
Proof.
  unfold ParseString, FormatString.
  now rewrite HasPrefix_app, TrimPrefix_app.
Qed.

(** X2: Parse succeeds exactly on the expected prefix followed by bytes of
    the alphabet (possibly none); on every error the returned id is 0. *)
Theorem Parse_succeeds_iff (prefix prefixedID : string) :
  (snd (Parse prefix prefixedID) = None <->
   exists digits, prefixedID = (prefix +:+ "_") +:+ digits /\ allBase62 digits = true)
  /\ (snd (Parse prefix prefixedID) <> None -> fst (Parse prefix prefixedID) = 0).
Proof.
  split.
  - split.
    + unfold Parse.
      destruct (HasPrefix prefixedID (prefix +:+ "_")) eqn:Hp; simpl; [|discriminate].
      apply HasPrefix_true_iff in Hp as [digits ->].
      rewrite TrimPrefix_app. unfold decodeBase62.
      rewrite decodeLoop_error_iff. intros Hall. now exists digits.
    + intros (digits & -> & Hall). rewrite Parse_prefixed.
      now apply decodeLoop_error_iff.
  - unfold Parse.
    destruct (HasPrefix prefixedID (prefix +:+ "_")); simpl; [|reflexivity].
    apply decodeLoop_error_value.
Qed.

(** X3: for a non-negative id, Format writes the prefix, an underscore and a
    canonical digit string: not empty, over the alphabet, and with a
    leading "0" only for the id 0. *)
Theorem Format_digits (prefix : string) (id : Z) :
  0 <= id ->
  exists digits, Format prefix id = (prefix +:+ "_") +:+ digits /\ canonical digits.
Proof.
  intros Hid. exists (encodeBase62 id). split; [reflexivity|].
  now apply encodeBase62_canonical.
Qed.

Lemma Format_digits_witness :
  exists digits, Format "art" 3843 = ("art" +:+ "_") +:+ digits /\ canonical digits.
Proof. apply (Format_digits "art" 3843). lia. Defined.

(** X4: Format never gives the same string to two different (prefix, id)
    pairs with ids in [0, 2^63). *)
Theorem Format_distinct (prefix prefix' : string) (id id' : Z) :
  0 <= id < 2 ^ 63 -> 0 <= id' < 2 ^ 63 ->
  prefix <> prefix' \/ id <> id' ->
  Format prefix id <> Format prefix' id'.
Proof.
  intros Hid Hid' Hne Heq. unfold Format in Heq.
  destruct (encodeBase62_canonical id ltac:(lia)) as [Hall _].
  destruct (encodeBase62_canonical id' ltac:(lia)) as [Hall' _].
  destruct (prefixed_split _ _ _ _ Hall Hall' Heq) as [Hp He].
  destruct Hne as [Hne|Hne]; [contradiction|].
  apply Hne.
  pose proof (decode_encodeBase62 id Hid) as H1.
  pose proof (decode_encodeBase62 id' Hid') as H2.
  rewrite He, H2 in H1. congruence.
Qed.

Lemma Format_distinct_witness :
  Format "usr" 7 <> Format "usr" 69 /\ Format "usr" 7 <> Format "us" 7.
Proof.
  split.
  - apply (Format_distinct "usr" "usr" 7 69); [lia|lia|right; discriminate].
  - apply (Format_distinct "usr" "us" 7 7); [lia|lia|left; discriminate].
Defined.

(** X5: Parse reads through leading "0" digits, and reads an id without
    digits as 0: several strings parse to the same id. *)
Theorem Parse_leading_zero (prefix digits : string) :
  Parse prefix ((prefix +:+ "_") +:+ String "0" digits)
  = Parse prefix ((prefix +:+ "_") +:+ digits)
  /\ Parse prefix (prefix +:+ "_") = (0, None).
Proof.
  split.
  - rewrite !Parse_prefixed. reflexivity.
  - rewrite <- (append_empty_r (prefix +:+ "_")) at 1.
    rewrite Parse_prefixed. reflexivity.
Qed.

(** X6: ParseIntParam reads back what Format wrote for an id in [0, 2^63),
    whatever strconv.ParseInt does. *)
Theorem ParseIntParam_Format (E : Type) (ParseInt : string -> Z * option E)
    (prefix : string) (id : Z) :
  0 <= id < 2 ^ 63 ->
  ParseIntParam E ParseInt prefix (Format prefix id) = (id, None).
Proof.
  intros Hid. unfold ParseIntParam, Format.
  rewrite HasPrefix_app, Parse_prefixed.
  now rewrite (decode_encodeBase62 id Hid).
Qed.

Lemma ParseIntParam_Format_witness :
  ParseIntParam unit (fun _ => (0, Some tt)) "gal" (Format "gal" 3843) = (3843, None).
Proof. apply (ParseIntParam_Format unit (fun _ => (0, Some tt)) "gal" 3843). lia. Defined.

(** X7: the round trip from the string side: a canonical digit string whose
    value fits an int64 parses to that value, and Format writes the same
    string back. *)
Theorem Format_Parse_roundtrip (prefix digits : string) :
  canonical digits ->
  base62Value digits < 2 ^ 63 ->
  Parse prefix ((prefix +:+ "_") +:+ digits) = (base62Value digits, None)
  /\ Format prefix (base62Value digits) = (prefix +:+ "_") +:+ digits.
Proof.
  intros Hc Hv. split.
  - rewrite Parse_prefixed. unfold decodeBase62, base62Value.
    destruct Hc as [Hall _]. apply decodeLoop_value; [exact Hall|lia|exact Hv].
  - unfold Format. now rewrite (encodeBase62_base62Value digits Hc).
Qed.

Lemma Format_Parse_roundtrip_witness :
  Parse "pay" (("pay" +:+ "_") +:+ "7B") = (base62Value "7B", None)
  /\ Format "pay" (base62Value "7B") = ("pay" +:+ "_") +:+ "7B".
Proof.
  apply (Format_Parse_roundtrip "pay" "7B").
  - split; [reflexivity|]. right. exists "7"%char, "B". split; [reflexivity|discriminate].
  - vm_compute. reflexivity.
Defined.

(** MustParse and the Formatter on what Format wrote. *)
Lemma MustParse_Format (prefix : string) (id : Z) :
  0 <= id < 2 ^ 63 -> MustParse prefix (Format prefix id) = Returned id.
Proof.
  intros Hid. unfold MustParse, Format.
  now rewrite Parse_prefixed, (decode_encodeBase62 id Hid).
Qed.

Lemma Formatter_roundtrip (prefix : string) (id : Z) :
  0 <= id < 2 ^ 63 ->
  Formatter_Parse (NewFormatter prefix) (Formatter_Format (NewFormatter prefix) id)
  = (id, None).
Proof.
  intros Hid. unfold Formatter_Parse, Formatter_Format, NewFormatter, Format. simpl.
  now rewrite Parse_prefixed, (decode_encodeBase62 id Hid).
Qed.

Example MustParse_wrong_prefix :
  MustParse "pay" "usr_123" = Panicked (errInvalidPrefix "pay_" "usr_123").
Proof. reflexivity. Qed.

End ids.

(** ** Package pagination (pagination/params.go) *)

Module pagination.

Definition DefaultLimit : Z := 20.
Definition MaxLimit : Z := 100.

Record Params : Type := mkParams {
  Limit : Z;
  Offset : Z;
  Sort : string;
}.

(** The method mutates its receiver; here it returns the new value. *)
Definition Normalize (p : Params) (defaultLimit maxLimit : Z) : Params :=
  let p := if Limit p <=? 0
           then {| Limit := defaultLimit; Offset := Offset p; Sort := Sort p |}
           else p in
  let p := if maxLimit <? Limit p
           then {| Limit := maxLimit; Offset := Offset p; Sort := Sort p |}
           else p in
  let p := if Offset p <? 0
           then {| Limit := Limit p; Offset := 0; Sort := Sort p |}
           else p in
  p.

Section Binding.
(** The request's query accessor (gin's c.Query) and the value part of
    strconv.Atoi, whose error the code drops. *)
Variable Query : string -> string.
Variable Atoi : string -> Z.

Definition Bind : Params :=
  let limit := Atoi (Query "limit") in
  let offset := Atoi (Query "offset") in
  let sort := Query "sort" in
  let sort := if String.eqb sort "" then Query "sort_by" else sort in
  {| Limit := limit; Offset := offset; Sort := sort |}.

Definition BindWithDefaults (defaultLimit maxLimit : Z) : Params :=
  let p := Bind in
  Normalize p defaultLimit maxLimit.

Definition BindDefault : Params := BindWithDefaults DefaultLimit MaxLimit.
End Binding.

Lemma Normalize_Sort p d m : Sort (Normalize p d m) = Sort p.
Proof.
  unfold Normalize.
  destruct (Limit p <=? 0); simpl;
    repeat match goal with |- context [if ?b then _ else _] => destruct b; simpl end;
    reflexivity.
Qed.

Ltac normalize_cases p :=
  destruct p as [l o s]; unfold Normalize; simpl;
  repeat match goal with
  | |- context [?a <=? ?b] => destruct (Z.leb_spec a b); simpl in *
  | |- context [?a <? ?b] => destruct (Z.ltb_spec a b); simpl in *
  end.

Lemma Normalize_Limit p d m : 0 < d <= m -> 0 < Limit (Normalize p d m) <= m.
Proof. intros Hdm. normalize_cases p; lia. Qed.

Lemma Normalize_Offset p d m : 0 < d <= m -> 0 <= Offset (Normalize p d m).
Proof. intros Hdm. normalize_cases p; lia. Qed.

Lemma Normalize_unchanged p d m :
  0 < Limit p <= m -> 0 <= Offset p -> Normalize p d m = p.
Proof.
  intros Hl Ho. destruct p as [l o s]. simpl in Hl, Ho. unfold Normalize. simpl.
  replace (l <=? 0) with false by (symmetry; apply Z.leb_gt; lia). simpl.
  replace (m <? l) with false by (symmetry; apply Z.ltb_ge; lia). simpl.
  replace (o <? 0) with false by (symmetry; apply Z.ltb_ge; lia).
  reflexivity.
Qed.

(** C10: with 0 < defaultLimit <= maxLimit, Normalize leaves a limit in
    (0, maxLimit] and a non-negative offset, and does not change a value
    that is already within these bounds. *)
Theorem Normalize_bounds (p : Params) (defaultLimit maxLimit : Z) :
  0 < defaultLimit <= maxLimit ->
  let p' := Normalize p defaultLimit maxLimit in
  0 < Limit p' <= maxLimit /\ 0 <= Offset p' /\
  (0 < Limit p <= maxLimit -> 0 <= Offset p -> p' = p).
Proof.
  intros Hdm p'. subst p'.
  split; [apply Normalize_Limit; exact Hdm|].
  split; [apply Normalize_Offset; exact Hdm|].
  apply Normalize_unchanged.
Qed.

Lemma Normalize_bounds_witness :
  Normalize (mkParams 50 10 "name") 20 100 = mkParams 50 10 "name"
  /\ 0 < Limit (Normalize (mkParams (-3) (-7) "") 20 100) <= 100.
Proof.
  split.
  - apply (Normalize_bounds (mkParams 50 10 "name") 20 100); simpl; lia.
  - apply (Normalize_bounds (mkParams (-3) (-7) "") 20 100). lia.
Defined.

(** What BindWithDefaults returns is within the bounds, whatever the
    request holds. *)
Lemma BindWithDefaults_bounds Query Atoi (defaultLimit maxLimit : Z) :
  0 < defaultLimit <= maxLimit ->
  0 < Limit (BindWithDefaults Query Atoi defaultLimit maxLimit) <= maxLimit
  /\ 0 <= Offset (BindWithDefaults Query Atoi defaultLimit maxLimit).
Proof.
  intros Hdm. unfold BindWithDefaults.
  split; [apply Normalize_Limit | apply Normalize_Offset]; exact Hdm.
Qed.

(** *** calculate.go

    [int] is taken 64 bits wide, so that [offset+limit] wraps as an int64
    does. *)

Definition HasMore (offset limit total : Z) : bool :=
  ids.wrap64 (offset + limit) <? total.

Definition HasMoreFromLen (offset resultLen total : Z) : bool :=
  ids.wrap64 (offset + resultLen) <? total.

(** X8: when offset+limit does not overflow, HasMore (and HasMoreFromLen)
    holds exactly when the end of the page lies before the total. *)
Theorem HasMore_exact (offset limit total : Z) :
  - 2 ^ 63 <= offset + limit < 2 ^ 63 ->
  (HasMore offset limit total = true <-> offset + limit < total)
  /\ HasMoreFromLen offset limit total = HasMore offset limit total.
Proof.
  intros Hsum. unfold HasMore, HasMoreFromLen.
  rewrite ids.wrap64_id by exact Hsum.
  split; [apply Z.ltb_lt|reflexivity].
Qed.

Lemma HasMore_exact_witness :
  (HasMore 80 20 100 = true <-> 80 + 20 < 100)
  /\ HasMoreFromLen 80 20 100 = HasMore 80 20 100.
Proof. apply (HasMore_exact 80 20 100). lia. Defined.

(** Past the int range the sum wraps, and a page far beyond the end reports
    more items. *)
Example HasMore_overflow : HasMore (2 ^ 63 - 1) 20 100 = true.
Proof. reflexivity. Qed.

(** X9: with a positive maxLimit, normalizing twice is normalizing once. *)
Theorem Normalize_idempotent (p : Params) (defaultLimit maxLimit : Z) :
  0 < maxLimit ->
  Normalize (Normalize p defaultLimit maxLimit) defaultLimit maxLimit
  = Normalize p defaultLimit maxLimit.
Proof.
  intros Hm. destruct p as [l o s]. unfold Normalize. simpl.
  repeat match goal with
  | |- context [?a <=? ?b] => destruct (Z.leb_spec a b); simpl in *
  | |- context [?a <? ?b] => destruct (Z.ltb_spec a b); simpl in *
  end; try reflexivity; try lia; try (f_equal; lia).
Qed.

Lemma Normalize_idempotent_witness :
  Normalize (Normalize (mkParams 500 (-7) "name") 0 100) 0 100
  = Normalize (mkParams 500 (-7) "name") 0 100.
Proof. apply (Normalize_idempotent (mkParams 500 (-7) "name") 0 100). lia. Defined.

(** Without a positive maxLimit a second pass can change the limit. *)
Example Normalize_twice_differs :
  Normalize (mkParams 3 0 "") (-5) (-1) = mkParams (-1) 0 ""
  /\ Normalize (mkParams (-1) 0 "") (-5) (-1) = mkParams (-5) 0 "".
Proof. split; reflexivity. Qed.

(** X10: whatever the query holds and whatever strconv.Atoi makes of it,
    BindWithDefaults with 0 < defaultLimit <= maxLimit returns a limit in
    (0, maxLimit] and a non-negative offset: the default limit when the
    parsed limit is not positive, maxLimit when it is larger, else the
    parsed limit itself. *)
Theorem BindWithDefaults_clamps (Query : string -> string) (Atoi : string -> Z)
    (defaultLimit maxLimit : Z) :
  0 < defaultLimit <= maxLimit ->
  let limit := Atoi (Query "limit") in
  let p := BindWithDefaults Query Atoi defaultLimit maxLimit in
  0 < Limit p <= maxLimit /\ 0 <= Offset p
  /\ Limit p = (if limit <=? 0 then defaultLimit else Z.min limit maxLimit)
  /\ Offset p = Z.max (Atoi (Query "offset")) 0.
Proof.
  intros Hdm limit p. subst limit p. unfold BindWithDefaults, Bind, Normalize. simpl.
  repeat match goal with
  | |- context [?a <=? ?b] => destruct (Z.leb_spec a b); simpl in *
  | |- context [?a <? ?b] => destruct (Z.ltb_spec a b); simpl in *
  end; repeat split; lia.
Qed.

Lemma BindWithDefaults_clamps_witness :
  let Query := fun key : string => if String.eqb key "limit" then "200" else "" in
  let Atoi := fun s : string => if String.eqb s "200" then 200 else 0 in
  let p := BindWithDefaults Query Atoi 10 50 in
  0 < Limit p <= 50 /\ 0 <= Offset p
  /\ Limit p = (if Atoi (Query "limit") <=? 0 then 10 else Z.min (Atoi (Query "limit")) 50)
  /\ Offset p = Z.max (Atoi (Query "offset")) 0.
Proof.
  intros Query Atoi. apply (BindWithDefaults_clamps Query Atoi 10 50). lia.
Defined.

Example BindWithDefaults_caps :
  Limit (BindWithDefaults
           (fun key => if String.eqb key "limit" then "200" else "")
           (fun s => if String.eqb s "200" then 200 else 0) 10 50) = 50.
Proof. reflexivity. Qed.

End pagination.

(** ** Package response (list.go) *)

Module response.

Section Lists.
Variable T : Type.

(** A slice [[]T]: nil, or a sequence that may be empty. *)
Inductive slice : Type :=
  | nilSlice
  | sliceOf (items : list T).

Definition items (s : slice) : list T :=
  match s with
  | nilSlice => []
  | sliceOf l => l
  end.

(** len(s) *)
Definition len (s : slice) : Z := Z.of_nat (length (items s)).

Record List : Type := mkList {
  Object : string;
  Data : slice;
  Total : Z;
  Limit : Z;
  Offset : Z;
  HasMore : bool;
}.

Definition NewList (data : slice) (total limit offset : Z) : List :=
  let data := match data with
              | nilSlice => sliceOf []
              | _ => data
              end in
  let hasMore := ids.wrap64 (offset + len data) <? total in
  mkList "list" data total limit offset hasMore.

(** X11: NewList never carries a nil slice and keeps the items it was
    given; when offset+len(data) does not overflow, has_more holds exactly
    when offset+len(data) is below the total, which is what
    pagination.HasMoreFromLen computes. *)
Theorem NewList_has_more (data : slice) (total limit offset : Z) :
  - 2 ^ 63 <= offset + len data < 2 ^ 63 ->
  let l := NewList data total limit offset in
  Data l <> nilSlice
  /\ items (Data l) = items data
  /\ (HasMore l = true <-> offset + len data < total)
  /\ HasMore l = pagination.HasMoreFromLen offset (len data) total.
Proof.
  intros Hsum l. subst l. unfold NewList, pagination.HasMoreFromLen.
  destruct data as [|xs]; simpl in *;
    (split; [discriminate|]); (split; [reflexivity|]);
    (split; [|reflexivity]);
    rewrite ids.wrap64_id by exact Hsum; apply Z.ltb_lt.
Qed.

End Lists.

Lemma NewList_has_more_witness :
  let l := NewList string (nilSlice string) 0 20 0 in
  Data string l <> nilSlice string
  /\ items string (Data string l) = items string (nilSlice string)
  /\ (HasMore string l = true <-> 0 + len string (nilSlice string) < 0)
  /\ HasMore string l = pagination.HasMoreFromLen 0 (len string (nilSlice string)) 0.
Proof.
  apply (NewList_has_more string (nilSlice string) 0 20 0).
  change (- 2 ^ 63 <= 0 + 0 < 2 ^ 63). lia.
Defined.

Example NewList_first_page :
  NewList string (sliceOf string ["a"; "b"; "c"]) 10 3 0
  = mkList string "list" (sliceOf string ["a"; "b"; "c"]) 10 3 0 true.
Proof. reflexivity. Qed.

Example NewList_exact_boundary :
  HasMore string (NewList string (sliceOf string ["a"; "b"; "c"]) 3 3 0) = false.
Proof. reflexivity. Qed.

End response.


(** ** Package middleware (language.go, the cookie-aware version) *)

Module middleware.
Import GoStrings.

(** *** Go and gin values *)

(** A value of type [any], as far as the code inspects it. *)
Inductive GoValue : Type :=
  | VString (s : string)
  | VOther.

(** A context.Context, as far as this package can observe it: nil, or a
    context and what it holds under the unexported key [languageKey]. *)
Inductive GoContext : Type :=
  | ctxNil
  | ctxWith (languageValue : option GoValue).

Definition Background : GoContext := ctxWith None.

(** The fields of an *http.Request that the package and gin's c.Redirect
    read.  [queryValues] is the parsed query (first value of each name,
    what c.Query returns), [cookies] the request's cookies by name with the
    unescaped value that c.Cookie returns, [headers] the first value of
    each header. *)
Record Request : Type := mkRequest {
  Method : string;
  URL_Path : string;
  URL_RawQuery : string;
  queryValues : gmap string string;
  cookies : gmap string string;
  headers : gmap string string;
  reqContext : GoContext;
}.

Inductive SameSite : Type :=
  | SameSiteDefaultMode
  | SameSiteLaxMode
  | SameSiteStrictMode
  | SameSiteNoneMode.

(** An http.Cookie written to the response. *)
Record Cookie : Type := mkCookie {
  Name : string;
  Value : string;
  MaxAge : Z;
  Path : string;
  Domain : string;
  CookieSameSite : SameSite;
  Secure : bool;
  HttpOnly : bool;
}.

(** A *gin.Context: the request (a pointer, nil in a context built without
    one), the key/value store, and what the handlers did to the response:
    its headers, its cookies and, once c.Redirect has written them, the
    status and the Location of the redirect.  The body is not kept. *)
Record Context : Type := mkContext {
  Request_ : option Request;
  Keys : gmap string GoValue;
  sameSite : SameSite;
  respHeader : gmap string string;
  respCookies : list Cookie;
  redirected : option (Z * string);
  aborted : bool;
}.

(** The outcome of running Go code that may dereference nil. *)
Inductive result (A : Type) : Type :=
  | Ok (a : A)
  | Panic (msg : string).
Arguments Ok {A} a.
Arguments Panic {A} msg.

Definition rbind {A B} (m : result A) (k : A -> result B) : result B :=
  match m with
  | Ok a => k a
  | Panic msg => Panic msg
  end.

Notation "'do' x <- m ; k" := (rbind m (fun x => k))
  (at level 10, x name, m at level 100, k at level 200).

Definition nilDeref : string := "invalid memory address or nil pointer dereference".

(** c.Request.<field>: panics on a nil request. *)
Definition deref (c : Context) : result Request :=
  match Request_ c with
  | Some req => Ok req
  | None => Panic nilDeref
  end.

(** A handler of the chain; [c.Next()] runs the rest of the chain, which a
    middleware receives here as its continuation. *)
Definition Handler : Type := Context -> result Context.
Definition Middleware : Type := Handler -> Handler.

Definition nonEmpty (s : string) : bool := negb (String.eqb s "").

(** c.Query(key) *)
Definition Query (req : Request) (key : string) : string :=
  default "" (queryValues req !! key).

(** c.Cookie(name): [Some] when err == nil *)
Definition GetCookie (req : Request) (name : string) : option string :=
  cookies req !! name.

(** c.GetHeader(key) *)
Definition GetHeader (req : Request) (key : string) : string :=
  default "" (headers req !! key).

(** c.Set(key, value) *)
Definition Set_ (c : Context) (key : string) (v : GoValue) : Context :=
  mkContext (Request_ c) (<[key := v]> (Keys c)) (sameSite c) (respHeader c)
            (respCookies c) (redirected c) (aborted c).

(** c.Request = c.Request.WithContext(ctx) *)
Definition withRequestContext (c : Context) (req : Request) (ctx : GoContext) : Context :=
  mkContext
    (Some (mkRequest (Method req) (URL_Path req) (URL_RawQuery req) (queryValues req)
                     (cookies req) (headers req) ctx))
    (Keys c) (sameSite c) (respHeader c) (respCookies c) (redirected c) (aborted c).

(** c.Header(key, value): an empty value deletes the header. *)
Definition Header (c : Context) (key value : string) : Context :=
  mkContext (Request_ c) (Keys c) (sameSite c)
            (if nonEmpty value then <[key := value]> (respHeader c)
             else delete key (respHeader c))
            (respCookies c) (redirected c) (aborted c).

(** c.SetSameSite(mode) *)
Definition SetSameSite (c : Context) (mode : SameSite) : Context :=
  mkContext (Request_ c) (Keys c) mode (respHeader c)
            (respCookies c) (redirected c) (aborted c).

(** c.SetCookie(name, value, maxAge, path, domain, secure, httpOnly) *)
Definition SetCookie (c : Context) (name value : string) (maxAge : Z)
    (path domain : string) (secure httpOnly : bool) : Context :=
  let path := if nonEmpty path then path else "/" in
  mkContext (Request_ c) (Keys c) (sameSite c) (respHeader c)
            (respCookies c ++
               [mkCookie name value maxAge path domain (sameSite c) secure httpOnly])
            (redirected c) (aborted c).

(** c.Abort() *)
Definition Abort (c : Context) : Context :=
  mkContext (Request_ c) (Keys c) (sameSite c) (respHeader c)
            (respCookies c) (redirected c) true.

Definition StatusFound : Z := 302.

(** *** net/http.Redirect, in which c.Redirect ends *)

(** Of a parsed *url.URL, the two fields that http.Redirect reads. *)
Record URL : Type := mkURL { Scheme : string; Host : string }.

(** net/url, of which http.Redirect uses Parse: [Some u] when the error is
    nil. *)
Class NetURL : Type := { ParseURL : string -> option URL }.

Definition hexDigit (n : N) : ascii :=
  default "0"%char (byteAt "0123456789abcdef" (N.to_nat n)).

(** hexEscapeNonASCII: every byte above 127 becomes '%' and its two
    lower-case hexadecimal digits. *)
Fixpoint hexEscapeNonASCII (s : string) : string :=
  match s with
  | EmptyString => EmptyString
  | String c r =>
      if isASCIIByte c then String c (hexEscapeNonASCII r)
      else
        let n := N_of_ascii c in
        String "%" (String (hexDigit (n / 16)) (String (hexDigit (n mod 16))
          (hexEscapeNonASCII r)))
  end.

Example hexEscapeNonASCII_utf8 : hexEscapeNonASCII "/café" = "/caf%c3%a9".
Proof. reflexivity. Qed.

(** The part of a URL before its first '?'. *)
Definition pathPart (url : string) : string :=
  match Index url "?" with
  | Some i => sliceTo i url
  | None => url
  end.

(** What http.Redirect makes of a URL without scheme and host: a relative
    path is made absolute with the directory of the request path, the part
    before the first '?' is cleaned by path.Clean, a trailing slash is
    kept, and the query is put back. *)
Definition cleanTarget (oldpath url : string) : string :=
  let oldpath := if nonEmpty oldpath then oldpath else "/" in
  let url :=
    if negb (nonEmpty url) || negb (HasPrefix url "/")
    then fst (GoPath.Split oldpath) +:+ url
    else url in
  let '(url, query) :=
    match Index url "?" with
    | Some i => (sliceTo i url, sliceFrom i url)
    | None => (url, "")
    end in
  let trailing := HasSuffix url "/" in
  let url := GoPath.Clean url in
  let url := if trailing && negb (HasSuffix url "/") then url +:+ "/" else url in
  url +:+ query.

Section WithNetURL.
Context {neturl : NetURL}.

(** Whether http.Redirect rewrites [url]: url.Parse accepts it and finds
    neither scheme nor host. *)
Definition rewritten (url : string) : bool :=
  match ParseURL url with
  | Some u => negb (nonEmpty (Scheme u)) && negb (nonEmpty (Host u))
  | None => false
  end.

(** The value of the Location header that http.Redirect(w, req, url, code)
    sets. *)
Definition redirectLocation (req : Request) (url : string) : string :=
  hexEscapeNonASCII
    (if rewritten url then cleanTarget (URL_Path req) url else url).

(** c.Redirect(code, location): gin's render.Redirect panics on a status
    that is neither 201 nor one of 300..308 and calls http.Redirect with
    c.Request, which reads r.URL.Path when it rewrites the URL, sets
    Location, reads r.Method unless the response has a Content-Type
    already, sets Content-Type for GET and HEAD, and writes the status. *)
Definition Redirect (c : Context) (code : Z) (location : string) : result Context :=
  if ((code <? 300) || (308 <? code)) && negb (code =? 201)
  then Panic ("Cannot redirect with status code " +:+ pretty code)
  else
    do url <- (if rewritten location
               then do req <- deref c; Ok (cleanTarget (URL_Path req) location)
               else Ok location);
    let hadCT := bool_decide (is_Some (respHeader c !! "Content-Type")) in
    let h := <["Location" := hexEscapeNonASCII url]> (respHeader c) in
    do h <- (if hadCT then Ok h
             else
               do req <- deref c;
               if String.eqb (Method req) "GET" || String.eqb (Method req) "HEAD"
               then Ok (<["Content-Type" := "text/html; charset=utf-8"]> h)
               else Ok h);
    Ok (mkContext (Request_ c) (Keys c) (sameSite c) h
                  (respCookies c) (Some (code, hexEscapeNonASCII url)) (aborted c)).

(** The response headers after a redirect of the request [req]. *)
Definition redirectHeader (c : Context) (req : Request) (location : string)
    : gmap string string :=
  let h := <["Location" := redirectLocation req location]> (respHeader c) in
  if bool_decide (is_Some (respHeader c !! "Content-Type")) then h
  else if String.eqb (Method req) "GET" || String.eqb (Method req) "HEAD"
       then <["Content-Type" := "text/html; charset=utf-8"]> h
       else h.

(** The context after c.Redirect(code, location) on the request [req]. *)
Definition redirectedContext (c : Context) (req : Request) (code : Z) (location : string)
    : Context :=
  mkContext (Request_ c) (Keys c) (sameSite c) (redirectHeader c req location)
            (respCookies c) (Some (code, redirectLocation req location)) (aborted c).

Definition validRedirectCode (code : Z) : Prop := 300 <= code <= 308 \/ code = 201.

Lemma Redirect_ok (c : Context) (req : Request) (code : Z) (location : string) :
  Request_ c = Some req ->
  validRedirectCode code ->
  Redirect c code location = Ok (redirectedContext c req code location).
Proof.
  intros Hreq Hcode.
  unfold Redirect, redirectedContext, redirectHeader, redirectLocation, deref.
  replace (((code <? 300) || (308 <? code)) && negb (code =? 201)) with false
    by (unfold validRedirectCode in Hcode; lia).
  rewrite Hreq.
  destruct (rewritten location); cbn [rbind];
    destruct (bool_decide _); cbn [rbind]; try reflexivity;
    destruct (_ || _); reflexivity.
Qed.

End WithNetURL.

(** A URL that is clean already is the Location: ASCII text that starts
    with '/' and whose part before the first '?' path.Clean leaves as it
    is. *)
Lemma hexEscapeNonASCII_ascii (s : string) :
  isASCII s = true -> hexEscapeNonASCII s = s.
Proof.
  induction s as [|c r IH]; [reflexivity|].
  cbn [isASCII hexEscapeNonASCII]. intros H.
  apply andb_true_iff in H as [Hc Hr]. now rewrite Hc, IH.
Qed.

Lemma cleanTarget_clean (oldpath url : string) :
  HasPrefix url "/" = true ->
  GoPath.Clean (pathPart url) = pathPart url ->
  cleanTarget oldpath url = url.
Proof.
  intros Hp Hclean. unfold cleanTarget, pathPart in *.
  assert (Hne : nonEmpty url = true) by (destruct url; [discriminate|reflexivity]).
  rewrite Hne, Hp. cbn [negb orb].
  destruct (Index url "?") as [i|].
  - rewrite Hclean.
    destruct (HasSuffix (sliceTo i url) "/"); cbn [negb andb];
      apply sliceTo_sliceFrom.
  - rewrite Hclean.
    destruct (HasSuffix url "/"); cbn [negb andb]; apply append_empty_r.
Qed.

Lemma redirectLocation_clean {neturl : NetURL} (req : Request) (url : string) :
  isASCII url = true ->
  HasPrefix url "/" = true ->
  GoPath.Clean (pathPart url) = pathPart url ->
  redirectLocation req url = url.
Proof.
  intros Hascii Hp Hclean. unfold redirectLocation.
  destruct (rewritten url).
  - rewrite (cleanTarget_clean _ _ Hp Hclean). now apply hexEscapeNonASCII_ascii.
  - now apply hexEscapeNonASCII_ascii.
Qed.

(** strconv, of which the package uses ParseFloat(s, 64): [Some v] when
    the error is nil. *)
Class Strconv : Type := { ParseFloat : string -> option float }.

(** *** language.go *)

Definition LanguageCookieName : string := "lang".
Definition LanguageCookieMaxAge : Z := 31536000.

Record LanguageConfig : Type := mkLanguageConfig {
  Supported : list string;
  Default : string;
  QueryParam : string;
  CookieName : string;
}.

Record LanguageRedirectConfig : Type := mkLanguageRedirectConfig {
  RSupported : list string;
  RDefault : string;
  SkipPaths : list string;
  SkipExtensions : list string;
}.

Record candidate : Type := mkCandidate { lang : string; q : float }.

Section WithStrconv.
Context {unicode : Unicode} {neturl : NetURL} {strconv : Strconv}.

(** [m := make(map); for _, lang := range languages { m[ToLower(lang)] = struct{}{} }] *)
Definition BuildSupportedMap (languages : list string) : gset string :=
  foldl (fun m lang => {[ ToLower lang ]} ∪ m) ∅ languages.

Definition supports (supported : gset string) (lang : string) : bool :=
  bool_decide (lang ∈ supported).

Definition extractLanguageFromPath (path : string) : string :=
  let trimmed := TrimPrefix path "/" in
  let parts := SplitN trimmed "/"%char 2 in
  match parts with
  | [] => ""
  | first :: _ =>
      if (len first =? 2) || (len first =? 3) then ToLower first else ""
  end.

Definition ExtractLanguageFromPath (path : string) : string :=
  extractLanguageFromPath path.


(** The body of the first loop of ParseAcceptLanguage: the candidate that
    one comma-separated part appends, [None] where the loop continues. *)
Definition parsePart (part : string) : option candidate :=
  let part := TrimSpace part in
  if negb (nonEmpty part) then None
  else
    let '(lang, q) :=
      match Index part ";" with
      | Some idx =>
          let lang := sliceTo idx part in
          let param := TrimSpace (sliceFrom (S idx) part) in
          if HasPrefix param "q="
          then match ParseFloat (TrimPrefix param "q=") with
               | Some v => (lang, v)
               | None => (lang, 1%float)
               end
          else (lang, 1%float)
      | None => (part, 1%float)
      end in
    let lang :=
      match Index lang "-" with
      | Some hyphen => sliceTo hyphen lang
      | None => lang
      end in
    let lang := ToLower (TrimSpace lang) in
    if negb (nonEmpty lang) then None
    else Some (mkCandidate lang q).

Definition candidates (header : string) : list candidate :=
  omap parsePart (Split header ","%char).

(** The body of the second loop, on the pair (bestLang, bestQ). *)
Definition better (supported : gset string) (best : string * float) (c : candidate)
    : string * float :=
  if supports supported (lang c) && (snd best <? q c)%float
  then (lang c, q c)
  else best.

Definition ParseAcceptLanguage (header : string) (supported : gset string) : string :=
  fst (foldl (better supported) ("", (-1)%float) (candidates header)).

Definition resolveLanguage (c : option Context) (supported : gset string)
    (fallback queryParam cookieName : string) : string :=
  match c with
  | None => fallback
  | Some c =>
  match Request_ c with
  | None => fallback
  | Some req =>
    let lang := ToLower (TrimSpace (Query req queryParam)) in
    if nonEmpty lang && supports supported lang then lang else
    let lang := extractLanguageFromPath (URL_Path req) in
    if nonEmpty lang && supports supported lang then lang else
    match (if nonEmpty cookieName then
             match GetCookie req cookieName with
             | Some lang =>
                 if nonEmpty lang then
                   let lang := ToLower (TrimSpace lang) in
                   if supports supported lang then Some lang else None
                 else None
             | None => None
             end
           else None) with
    | Some lang => lang
    | None =>
      let header := GetHeader req "Accept-Language" in
      match (if nonEmpty header then
               let lang := ParseAcceptLanguage header supported in
               if nonEmpty lang then Some lang else None
             else None) with
      | Some lang => lang
      | None => fallback
      end
    end
  end
  end.

Definition WithLanguage (ctx : GoContext) (lang : string) : GoContext :=
  let ctx := match ctx with ctxNil => Background | _ => ctx end in
  if negb (nonEmpty lang) then ctx
  else ctxWith (Some (VString (ToLower lang))).

Definition LanguageFromContext (ctx : GoContext) : string :=
  match ctx with
  | ctxNil => ""
  | ctxWith (Some (VString v)) => v
  | ctxWith _ => ""
  end.

(** The values that Language computes once, before it returns the handler. *)
Definition supportedMapOf (cfg : LanguageConfig) : gset string :=
  let supportedMap := BuildSupportedMap (Supported cfg) in
  if bool_decide (size supportedMap = 0%nat) then {[ "en" ]} ∪ supportedMap
  else supportedMap.

Definition normalizeDefault (d : string) : string :=
  let defaultLang := ToLower (TrimSpace d) in
  if nonEmpty defaultLang then defaultLang else "en".

Definition queryParamOf (cfg : LanguageConfig) : string :=
  if nonEmpty (QueryParam cfg) then QueryParam cfg else "lang".

Definition cookieNameOf (cfg : LanguageConfig) : string :=
  if nonEmpty (CookieName cfg) then CookieName cfg else "lang".

Definition Language (cfg : LanguageConfig) : Middleware :=
  let supportedMap := supportedMapOf cfg in
  let defaultLang := normalizeDefault (Default cfg) in
  let queryParam := queryParamOf cfg in
  let cookieName := cookieNameOf cfg in
  fun next c =>
    let lang := resolveLanguage (Some c) supportedMap defaultLang queryParam cookieName in
    let c := Set_ c "language" (VString lang) in
    do req <- deref c;
    let ctx := WithLanguage (reqContext req) lang in
    let c := withRequestContext c req ctx in
    let c := Header c "Content-Language" lang in
    next c.

Definition GetLanguage (c : option Context) : result string :=
  match c with
  | None => Ok "en"
  | Some c =>
      match (match Keys c !! "language" with
             | Some (VString s) => if nonEmpty s then Some s else None
             | _ => None
             end) with
      | Some s => Ok s
      | None =>
          do req <- deref c;
          let lang := LanguageFromContext (reqContext req) in
          if nonEmpty lang then Ok lang else Ok "en"
      end
  end.

Definition shouldSkipRedirect (path : string) (skipPaths skipExtensions : list string) : bool :=
  if existsb (fun prefix => HasPrefix path prefix) skipPaths then true
  else if String.eqb path "/health" || String.eqb path "/healthz" || String.eqb path "/readyz"
  then true
  else if String.eqb path "/runtime-config.js" then true
  else
    let lowPath := ToLower path in
    if existsb (fun ext => HasSuffix lowPath ext) skipExtensions then true
    else false.

Definition detectPreferredLanguage (c : Context) (supportedMap : gset string)
    (defaultLang : string) : result string :=
  do req <- deref c;
  match (match GetCookie req LanguageCookieName with
         | Some lang =>
             if nonEmpty lang then
               let lang := ToLower (TrimSpace lang) in
               if supports supportedMap lang then Some lang else None
             else None
         | None => None
         end) with
  | Some lang => Ok lang
  | None =>
    let header := GetHeader req "Accept-Language" in
    match (if nonEmpty header then
             let lang := ParseAcceptLanguage header supportedMap in
             if nonEmpty lang then Some lang else None
           else None) with
    | Some lang => Ok lang
    | None => Ok defaultLang
    end
  end.

Definition setLanguageCookie (c : Context) (lang : string) : Context :=
  let c := SetSameSite c SameSiteLaxMode in
  SetCookie c LanguageCookieName lang LanguageCookieMaxAge "/" "" false false.

Definition defaultSkipPaths : list string :=
  ["/api/"; "/auth/"; "/oauth/"; "/.well-known/"].

Definition defaultSkipExtensions : list string :=
  [".js"; ".css"; ".png"; ".jpg"; ".jpeg"; ".gif"; ".svg"; ".ico";
   ".woff"; ".woff2"; ".ttf"; ".eot"; ".map"; ".webp"; ".mp4"; ".webm"].

Definition skipPathsOf (cfg : LanguageRedirectConfig) : list string :=
  if (length (SkipPaths cfg) =? 0)%nat then defaultSkipPaths else SkipPaths cfg.

Definition skipExtensionsOf (cfg : LanguageRedirectConfig) : list string :=
  if (length (SkipExtensions cfg) =? 0)%nat then defaultSkipExtensions
  else SkipExtensions cfg.

Definition LanguageRedirect (cfg : LanguageRedirectConfig) : Middleware :=
  if (length (RSupported cfg) =? 0)%nat then
    fun next c => next c
  else
    let supportedMap := BuildSupportedMap (RSupported cfg) in
    let defaultLang := normalizeDefault (RDefault cfg) in
    let skipPaths := skipPathsOf cfg in
    let skipExtensions := skipExtensionsOf cfg in
    fun next c =>
      do req <- deref c;
      let path := URL_Path req in
      if shouldSkipRedirect path skipPaths skipExtensions then next c
      else
        let langFromPath := extractLanguageFromPath path in
        if nonEmpty langFromPath && supports supportedMap langFromPath
        then
          let c := setLanguageCookie c langFromPath in
          next c
        else
          do preferredLang <- detectPreferredLanguage c supportedMap defaultLang;
          let redirectURL := ("/" +:+ preferredLang) +:+ path in
          let redirectURL :=
            if nonEmpty (URL_RawQuery req)
            then (redirectURL +:+ "?") +:+ URL_RawQuery req
            else redirectURL in
          do c <- Redirect c StatusFound redirectURL;
          let c := Abort c in
          Ok c.

End WithStrconv.

(** *** The order of float64 values

    [<?] on floats is IEEE comparison: false as soon as one side is NaN.
    The two facts that the selection loop relies on are read off the
    specification of the primitive comparison. *)

Ltac cmp_cases :=
  repeat match goal with
  | H : context [Pos.compare_cont Eq ?a ?b] |- _ =>
      change (Pos.compare_cont Eq a b) with (Pos.compare a b) in *
  | |- context [Pos.compare_cont Eq ?a ?b] =>
      change (Pos.compare_cont Eq a b) with (Pos.compare a b) in *
  end;
  repeat match goal with
  | H : context [Z.compare ?a ?b] |- _ => destruct (Z.compare_spec a b); simpl in *
  | |- context [Z.compare ?a ?b] => destruct (Z.compare_spec a b); simpl in *
  | H : context [Pos.compare ?a ?b] |- _ => destruct (Pos.compare_spec a b); simpl in *
  | |- context [Pos.compare ?a ?b] => destruct (Pos.compare_spec a b); simpl in *
  end;
  try discriminate; try reflexivity; try lia.

Lemma SFltb_trans (x y z : spec_float) :
  SFltb x y = true -> SFltb y z = true -> SFltb x z = true.
Proof.
  unfold SFltb.
  destruct x as [[]|[]| |[] mx ex], y as [[]|[]| |[] my ey], z as [[]|[]| |[] mz ez];
    simpl; try discriminate; try reflexivity; intros H1 H2; cmp_cases.
Qed.

Lemma SFltb_le_lt (m e c d : spec_float) :
  SFltb m e = true -> SFltb c e = false -> SFltb c d = true -> SFltb e d = true.
Proof.
  unfold SFltb.
  destruct m as [[]|[]| |[] mm em], e as [[]|[]| |[] me ee],
           c as [[]|[]| |[] mc ec], d as [[]|[]| |[] md ed];
    simpl; try discriminate; try reflexivity; intros H1 H2 H3; cmp_cases.
Qed.

Lemma ltb_trans (x y z : float) :
  (x <? y)%float = true -> (y <? z)%float = true -> (x <? z)%float = true.
Proof. rewrite !FloatAxioms.ltb_spec. apply SFltb_trans. Qed.

(** If [e] is a number (something is below it) and [c] is not below [e],
    then whatever is above [c] is above [e]. *)
Lemma ltb_le_lt (m e c d : float) :
  (m <? e)%float = true -> (c <? e)%float = false -> (c <? d)%float = true ->
  (e <? d)%float = true.
Proof. rewrite !FloatAxioms.ltb_spec. apply SFltb_le_lt. Qed.

Section Selection.
Context {unicode : Unicode} {neturl : NetURL} {strconv : Strconv}.
Variable supported : gset string.

(** What the selection loop holds after it has gone through [cs]: nothing
    yet, or the candidate [c] of [cs] that it picked. *)
Definition selected (cs : list candidate) (best : string * float) : Prop :=
  ((forall c, c ∈ cs -> supports supported (lang c) = true ->
      ((-1) <? q c)%float = false)
   /\ best = ("", (-1)%float))
  \/ (exists (pre : list candidate) c post,
        cs = (pre ++ c :: post)%list /\ best = (lang c, q c)
        /\ supports supported (lang c) = true
        /\ ((-1) <? q c)%float = true
        /\ (forall d, d ∈ pre -> supports supported (lang d) = true ->
              ((-1) <? q d)%float = true -> (q d <? q c)%float = true)
        /\ (forall d, d ∈ post -> supports supported (lang d) = true ->
              (q c <? q d)%float = false)).

Lemma selected_nil : selected [] ("", (-1)%float).
Proof. left. split; [|reflexivity]. intros c Hc. inversion Hc. Qed.

Lemma selected_step (cs : list candidate) (best : string * float) (d : candidate) :
  selected cs best -> selected (cs ++ [d])%list (better supported best d).
Proof.
  intros [[Hnone ->] | (pre & c & post & -> & -> & Hsup & Hq & Hpre & Hpost)];
    unfold better; simpl.
  - destruct (supports supported (lang d)) eqn:Hd; simpl.
    + destruct ((-1) <? q d)%float eqn:Hqd.
      * right. exists cs, d, []. repeat split; try assumption.
        -- intros e He Hse Hqe. rewrite (Hnone e He Hse) in Hqe. discriminate.
        -- intros e He. inversion He.
      * left. split; [|reflexivity].
        intros e He Hse. apply elem_of_app in He as [He|He]; [auto|].
        apply list_elem_of_singleton in He. now subst e.
    + left. split; [|reflexivity].
      intros e He Hse. apply elem_of_app in He as [He|He]; [auto|].
      apply list_elem_of_singleton in He. subst e. congruence.
  - destruct (supports supported (lang d) && (q c <? q d)%float) eqn:Hd.
    + apply andb_true_iff in Hd as [Hsd Hqd].
      right. exists (pre ++ c :: post)%list, d, [].
      repeat split; try assumption.
      * eapply ltb_trans; eassumption.
      * intros e He Hse Hqe.
        apply elem_of_app in He as [He|He].
        -- eapply ltb_trans; [|exact Hqd]. auto.
        -- apply elem_of_cons in He as [->|He]; [exact Hqd|].
           eapply ltb_le_lt; [exact Hqe| |exact Hqd]. auto.
      * intros e He. inversion He.
    + right. exists pre, c, (post ++ [d])%list.
      repeat split; try assumption.
      * now rewrite <- app_assoc.
      * intros e He Hse. apply elem_of_app in He as [He|He]; [auto|].
        apply list_elem_of_singleton in He. subst e.
        rewrite Hse in Hd. simpl in Hd. exact Hd.
Qed.

Lemma selected_foldl (cs : list candidate) :
  selected cs (foldl (better supported) ("", (-1)%float) cs).
Proof.
  induction cs as [|d cs IH] using rev_ind.
  - apply selected_nil.
  - rewrite foldl_app. simpl. apply selected_step. exact IH.
Qed.

End Selection.

(** *** strconv.ParseFloat on plain decimal literals

    The instance of [Strconv] that the examples run on: an optional sign,
    digits with an optional point, at most fifteen digits.  Numerator and
    power of ten are then exact in binary64 and their quotient is the
    correctly rounded value, which is what strconv.ParseFloat returns.
    Any other text is an error for this instance (strconv accepts more:
    exponents, hexadecimal, Inf, NaN); the theorems are therefore stated
    for every instance. *)

Definition digitValue (c : ascii) : option Z :=
  let n := Z.of_N (N_of_ascii c) in
  if (48 <=? n) && (n <=? 57) then Some (n - 48) else None.

Fixpoint readDigits (s : string) (acc : Z) : option Z :=
  match s with
  | EmptyString => Some acc
  | String c r =>
      match digitValue c with
      | Some d => readDigits r (acc * 10 + d)
      | None => None
      end
  end.

Fixpoint splitDot (s : string) : string * option string :=
  match s with
  | EmptyString => (EmptyString, None)
  | String c r =>
      if Ascii.eqb c "." then (EmptyString, Some r)
      else let '(a, b) := splitDot r in (String c a, b)
  end.

Definition floatOfZ (z : Z) : float := PrimFloat.of_uint63 (Uint63.of_Z z).

Definition parseDecimal (s : string) : option float :=
  let '(neg, s) :=
    match s with
    | String "-" r => (true, r)
    | String "+" r => (false, r)
    | _ => (false, s)
    end in
  let '(ip, fp) := splitDot s in
  let fp := default "" fp in
  let n := (String.length ip + String.length fp)%nat in
  if ((n =? 0) || (15 <? n))%nat then None
  else
    match readDigits (ip +:+ fp) 0 with
    | Some m =>
        let v := (floatOfZ m / floatOfZ (10 ^ Z.of_nat (String.length fp)))%float in
        Some (if neg then (- v)%float else v)
    | None => None
    end.

Definition decimalStrconv : Strconv := {| ParseFloat := parseDecimal |}.

Example parseDecimal_half : parseDecimal "0.5" = Some 0.5%float.
Proof. reflexivity. Qed.

Example parseDecimal_minus_two : parseDecimal "-2" = Some (-2)%float.
Proof. reflexivity. Qed.

Example parseDecimal_text : parseDecimal "high" = None.
Proof. reflexivity. Qed.

(** *** The unicode package, byte by byte

    The instance of [Unicode] that the examples run on.  Their text is
    ASCII, on which strings.ToLower and strings.TrimSpace do not reach the
    unicode package.  On other text this instance lower-cases and trims
    the ASCII bytes only, which is not what Go does; the theorems are
    therefore stated for every instance. *)

Lemma bytewise_lower (s : string) :
  (if isASCII (lowerASCII s) then lowerASCII (lowerASCII s)
   else lowerASCII (lowerASCII s)) = lowerASCII s.
Proof. rewrite lowerASCII_idem. now destruct (isASCII _). Qed.

Definition bytewise : Unicode :=
  {| MapToLower := lowerASCII;
     TrimFuncIsSpace := fun s => TrimRightSpace (TrimLeftSpace s);
     TrimRightFuncIsSpace := TrimRightSpace;
     MapToLower_lower := bytewise_lower |}.

(** The same instance with one rune beyond ASCII: unicode.ToLower maps
    U+212A KELVIN SIGN, the bytes e2 84 aa, to 'k'. *)

Definition kelvinSign : string :=
  String (ascii_of_N 226) (String (ascii_of_N 132) (String (ascii_of_N 170) "")).

Definition kelvinLower (s : string) : string :=
  if String.eqb (lowerASCII s) kelvinSign then "k" else lowerASCII s.

Lemma kelvinLower_lower (s : string) :
  (if isASCII (kelvinLower s) then lowerASCII (kelvinLower s)
   else kelvinLower (kelvinLower s)) = kelvinLower s.
Proof.
  unfold kelvinLower at 1 2 4 5.
  destruct (String.eqb (lowerASCII s) kelvinSign) eqn:Hk; [reflexivity|].
  destruct (isASCII (lowerASCII s)); [apply lowerASCII_idem|].
  unfold kelvinLower. now rewrite lowerASCII_idem, Hk.
Qed.

Definition withKelvin : Unicode :=
  {| MapToLower := kelvinLower;
     TrimFuncIsSpace := fun s => TrimRightSpace (TrimLeftSpace s);
     TrimRightFuncIsSpace := TrimRightSpace;
     MapToLower_lower := kelvinLower_lower |}.

(** *** url.Parse on plain absolute paths

    The instance of [NetURL] that the examples run on: text that starts
    with one '/' (not with two) and holds neither a control byte nor '%'
    is accepted by url.Parse as a URL without scheme and host.  Any other
    text is an error for this instance (url.Parse accepts more); the
    theorems are therefore stated for every instance. *)

Definition plainByte (c : ascii) : bool :=
  let n := N_of_ascii c in (32 <=? n)%N && negb (n =? 127)%N && negb (n =? 37)%N.

Fixpoint allPlain (s : string) : bool :=
  match s with
  | EmptyString => true
  | String c r => plainByte c && allPlain r
  end.

Definition plainPath (s : string) : bool :=
  HasPrefix s "/" && negb (HasPrefix s "//") && allPlain s.

Definition plainURLs : NetURL :=
  {| ParseURL := fun s => if plainPath s then Some (mkURL "" "") else None |}.

(** *** ParseAcceptLanguage *)

Section AcceptLanguage.
Context {unicode : Unicode} {neturl : NetURL} {strconv : Strconv}.

(** A part without parameters has quality 1. *)
Lemma parsePart_no_param (part : string) (c : candidate) :
  Index (TrimSpace part) ";" = None ->
  parsePart part = Some c -> q c = 1%float.
Proof.
  unfold parsePart. intros Hidx.
  destruct (negb (nonEmpty (TrimSpace part))); [discriminate|].
  rewrite Hidx.
  match goal with |- context [if ?b then None else _] => destruct b end;
    [discriminate|].
  intros [= <-]. reflexivity.
Qed.

(** A q parameter that ParseFloat rejects leaves quality 1. *)
Lemma parsePart_unparsable (part : string) (idx : nat) (c : candidate) :
  Index (TrimSpace part) ";" = Some idx ->
  ParseFloat (TrimPrefix (TrimSpace (sliceFrom (S idx) (TrimSpace part))) "q=") = None ->
  parsePart part = Some c -> q c = 1%float.
Proof.
  unfold parsePart. intros Hidx Hpf.
  destruct (negb (nonEmpty (TrimSpace part))); [discriminate|].
  rewrite Hidx, Hpf.
  destruct (HasPrefix _ "q=");
    (match goal with |- context [if ?b then None else _] => destruct b end;
     [discriminate|]);
    intros [= <-]; reflexivity.
Qed.

(** A q parameter that directly follows the first ';' and that ParseFloat
    accepts is the quality. *)
Lemma parsePart_parsed (part : string) (idx : nat) (v : float) (c : candidate) :
  Index (TrimSpace part) ";" = Some idx ->
  HasPrefix (TrimSpace (sliceFrom (S idx) (TrimSpace part))) "q=" = true ->
  ParseFloat (TrimPrefix (TrimSpace (sliceFrom (S idx) (TrimSpace part))) "q=") = Some v ->
  parsePart part = Some c -> q c = v.
Proof.
  unfold parsePart. intros Hidx Hq Hpf.
  destruct (negb (nonEmpty (TrimSpace part))); [discriminate|].
  rewrite Hidx, Hq, Hpf.
  match goal with |- context [if ?b then None else _] => destruct b end;
    [discriminate|].
  intros [= <-]. reflexivity.
Qed.

(** Parameters that do not start with "q=" leave quality 1. *)
Lemma parsePart_other_param (part : string) (idx : nat) (c : candidate) :
  Index (TrimSpace part) ";" = Some idx ->
  HasPrefix (TrimSpace (sliceFrom (S idx) (TrimSpace part))) "q=" = false ->
  parsePart part = Some c -> q c = 1%float.
Proof.
  unfold parsePart. intros Hidx Hq.
  destruct (negb (nonEmpty (TrimSpace part))); [discriminate|].
  rewrite Hidx, Hq.
  match goal with |- context [if ?b then None else _] => destruct b end;
    [discriminate|].
  intros [= <-]. reflexivity.
Qed.

(** Every candidate carries a non-empty, lower-cased subtag. *)
Lemma parsePart_lang (part : string) (c : candidate) :
  parsePart part = Some c -> lang c <> "" /\ ToLower (lang c) = lang c.
Proof.
  unfold parsePart.
  destruct (negb (nonEmpty (TrimSpace part))); [discriminate|].
  destruct (match Index (TrimSpace part) ";" with Some _ => _ | None => _ end)
    as [l v].
  match goal with |- context [nonEmpty ?x] => destruct (nonEmpty x) eqn:Hne end;
    simpl; [|discriminate].
  intros [= <-]. simpl. split.
  - intros Heq. unfold nonEmpty in Hne. rewrite Heq in Hne. discriminate.
  - apply ToLower_idem.
Qed.

Lemma candidates_lang (header : string) (c : candidate) :
  c ∈ candidates header -> lang c <> "" /\ ToLower (lang c) = lang c.
Proof.
  unfold candidates. rewrite list_elem_of_omap.
  intros (part & _ & Hpart). now apply parsePart_lang in Hpart.
Qed.

(** **** The entries of a header, in the words of the specification

    The header is a list of comma-separated entries, white space around
    each removed.  The subtag of an entry is the text before its first
    ';', cut at the first '-', trimmed and lower-cased.  Its quality is
    the number that follows "q=" when the text after the first ';',
    trimmed, starts with "q=" and ParseFloat accepts the rest; it is 1
    otherwise.  Entries that are empty or have an empty subtag do not
    count. *)

Fixpoint textBefore (c : ascii) (s : string) : string :=
  match s with
  | EmptyString => EmptyString
  | String b r => if Ascii.eqb c b then EmptyString else String b (textBefore c r)
  end.

Fixpoint textAfter (c : ascii) (s : string) : option string :=
  match s with
  | EmptyString => None
  | String b r => if Ascii.eqb c b then Some r else textAfter c r
  end.

Definition subtag (entry : string) : string :=
  ToLower (TrimSpace (textBefore "-" (textBefore ";" entry))).

Definition quality (entry : string) : float :=
  match textAfter ";" entry with
  | Some params =>
      let params := TrimSpace params in
      if HasPrefix params "q="
      then default 1%float (ParseFloat (sliceFrom 2 params))
      else 1%float
  | None => 1%float
  end.

Definition entryOf (part : string) : option candidate :=
  let entry := TrimSpace part in
  if nonEmpty entry && nonEmpty (subtag entry)
  then Some (mkCandidate (subtag entry) (quality entry))
  else None.

Definition entries (header : string) : list candidate :=
  omap entryOf (Split header ","%char).

(** strings.Index for a one-byte separator finds the first occurrence. *)
Lemma IndexFrom_byte (c : ascii) (s : string) (k : nat) :
  match IndexFrom s (String c "") k with
  | Some i =>
      (k <= i)%nat
      /\ sliceTo (i - k) s = textBefore c s
      /\ textAfter c s = Some (sliceFrom (S (i - k)) s)
  | None => textBefore c s = s /\ textAfter c s = None
  end.
Proof.
  revert k. induction s as [|b r IH]; intros k; [now split|].
  cbn [IndexFrom HasPrefix textBefore textAfter].
  destruct (Ascii.eqb c b) eqn:Hcb; cbn [andb].
  - replace (k - k)%nat with 0%nat by lia. repeat split. lia.
  - specialize (IH (S k)). destruct (IndexFrom r (String c "") (S k)) as [i|].
    + destruct IH as (Hle & Hto & Hafter).
      replace (i - k)%nat with (S (i - S k)) by lia.
      cbn [sliceTo sliceFrom]. rewrite Hto, Hafter. repeat split. lia.
    + destruct IH as [Hto Hafter]. rewrite Hto, Hafter. now split.
Qed.

Lemma Index_byte (c : ascii) (s : string) :
  match Index s (String c "") with
  | Some i =>
      sliceTo i s = textBefore c s /\ textAfter c s = Some (sliceFrom (S i) s)
  | None => textBefore c s = s /\ textAfter c s = None
  end.
Proof.
  unfold Index. pose proof (IndexFrom_byte c s 0) as H.
  destruct (IndexFrom s (String c "") 0) as [i|]; [|exact H].
  rewrite Nat.sub_0_r in H. tauto.
Qed.

Lemma cut_at_hyphen (s : string) :
  match Index s "-" with
  | Some hyphen => sliceTo hyphen s
  | None => s
  end = textBefore "-" s.
Proof.
  pose proof (Index_byte "-" s) as H.
  destruct (Index s "-") as [i|]; [tauto|]. now destruct H as [-> _].
Qed.

(** The loop body of the code collects the entry that the specification
    describes. *)
Lemma parsePart_entryOf (part : string) : parsePart part = entryOf part.
Proof.
  unfold parsePart, entryOf, subtag, quality.
  destruct (nonEmpty (TrimSpace part)); cbn [negb andb]; [|reflexivity].
  pose proof (Index_byte ";" (TrimSpace part)) as H.
  destruct (Index (TrimSpace part) ";") as [idx|].
  - destruct H as [Hto Hafter]. rewrite Hafter, <- Hto.
    unfold TrimPrefix.
    destruct (HasPrefix (TrimSpace (sliceFrom (S idx) (TrimSpace part))) "q=").
    + destruct (ParseFloat _); cbn [default];
        rewrite cut_at_hyphen; now destruct (nonEmpty _).
    + rewrite cut_at_hyphen; now destruct (nonEmpty _).
  - destruct H as [Hto Hafter]. rewrite Hafter, Hto.
    rewrite cut_at_hyphen; now destruct (nonEmpty _).
Qed.

Lemma candidates_entries (header : string) : candidates header = entries header.
Proof.
  unfold candidates, entries.
  induction (Split header ",") as [|part parts IH]; [reflexivity|].
  cbn [omap list_omap]. now rewrite parsePart_entryOf, IH.
Qed.

End AcceptLanguage.

Section AcceptLanguageSelection.
Context {unicode : Unicode} {neturl : NetURL} {strconv : Strconv}.

(** Without a supported candidate the result is the empty string. *)
Lemma ParseAcceptLanguage_none_supported (header : string) (supported : gset string) :
  (forall c, c ∈ candidates header -> supports supported (lang c) = false) ->
  ParseAcceptLanguage header supported = "".
Proof.
  intros Hnone. unfold ParseAcceptLanguage.
  destruct (selected_foldl supported (candidates header))
    as [[_ ->] | (pre & c & post & Hcs & _ & Hsup & _)]; [reflexivity|].
  rewrite Hnone in Hsup; [discriminate|].
  rewrite Hcs. apply elem_of_app. right. apply elem_of_cons. now left.
Qed.

(** A result other than the empty string is a supported locale. *)
Lemma ParseAcceptLanguage_supported (header : string) (supported : gset string) :
  ParseAcceptLanguage header supported <> "" ->
  ParseAcceptLanguage header supported ∈ supported.
Proof.
  unfold ParseAcceptLanguage. intros Hne.
  destruct (selected_foldl supported (candidates header))
    as [[_ Hb] | (pre & c & post & _ & Hb & Hsup & _)]; rewrite Hb in *.
  - contradiction.
  - unfold supports in Hsup. now apply bool_decide_eq_true in Hsup.
Qed.

(** When the header has a supported entry of a quality above -1, the
    result is the subtag of a supported entry of the header. *)
Lemma ParseAcceptLanguage_entry (header : string) (supported : gset string) :
  (exists e, e ∈ entries header /\ supports supported (lang e) = true
             /\ ((-1) <? q e)%float = true) ->
  exists e, e ∈ entries header /\ lang e ∈ supported /\ lang e <> ""
            /\ ParseAcceptLanguage header supported = lang e.
Proof.
  intros (e0 & He0 & Hs0 & Hq0). unfold ParseAcceptLanguage.
  destruct (selected_foldl supported (candidates header))
    as [[Hnone _] | (pre & e & post & Hcs & -> & Hsup & _)].
  - rewrite candidates_entries in Hnone. rewrite (Hnone e0 He0 Hs0) in Hq0. discriminate.
  - assert (He : e ∈ candidates header).
    { rewrite Hcs. apply elem_of_app. right. apply elem_of_cons. now left. }
    exists e. repeat split.
    + now rewrite <- candidates_entries.
    + now apply bool_decide_eq_true in Hsup.
    + now apply candidates_lang in He.
Qed.


End AcceptLanguageSelection.

Section AcceptLanguageExamples.
#[local] Existing Instance bytewise.
#[local] Existing Instance decimalStrconv.

Example accept_language_scenario :
  ParseAcceptLanguage "ko-KR,ko;q=0.9,en;q=0.8" {[ "en"; "ja"; "ko" ]} = "ko".
Proof. vm_compute. reflexivity. Qed.

Example accept_language_quality_order :
  ParseAcceptLanguage "en;q=0.3, ja;q=0.8" {[ "en"; "ja"; "ko" ]} = "ja".
Proof. vm_compute. reflexivity. Qed.

Example accept_language_tie :
  ParseAcceptLanguage "ja;q=0.8,en;q=0.8" {[ "en"; "ja"; "ko" ]} = "ja".
Proof. vm_compute. reflexivity. Qed.

Example accept_language_unsupported :
  ParseAcceptLanguage "fr,de" {[ "en"; "ja" ]} = "".
Proof. vm_compute. reflexivity. Qed.

(** The parsed quality decides, not the order of the header. *)
Example accept_language_parsed_quality :
  entries "en;q=0.25, ja;q=0.75"
  = [mkCandidate "en" 0.25%float; mkCandidate "ja" 0.75%float]
  /\ ParseAcceptLanguage "en;q=0.25, ja;q=0.75" {[ "en"; "ja" ]} = "ja"
  /\ ParseAcceptLanguage "en;q=0.1, ja;q=0.9" {[ "en"; "ja" ]} = "ja".
Proof. repeat split; vm_compute; reflexivity. Qed.

(** The subtag is the text before the first '-', lower-cased. *)
Example accept_language_region :
  entries " JA-jp " = [mkCandidate "ja" 1%float]
  /\ ParseAcceptLanguage " JA-jp " {[ "en"; "ja" ]} = "ja".
Proof. split; vm_compute; reflexivity. Qed.

(** A quality that ParseFloat rejects counts as 1. *)
Example accept_language_unparsable_quality :
  entries "ja;q=high, en;q=0.5" = [mkCandidate "ja" 1%float; mkCandidate "en" 0.5%float]
  /\ ParseAcceptLanguage "ja;q=high, en;q=0.5" {[ "en"; "ja" ]} = "ja"
  /\ ParseAcceptLanguage "en;q=0.5, ja;q=high" {[ "en"; "ja" ]} = "ja".
Proof. repeat split; vm_compute; reflexivity. Qed.


End AcceptLanguageExamples.

(** *** The resolver and the negotiation middleware *)

Lemma nonEmpty_true (s : string) : nonEmpty s = true <-> s <> "".
Proof.
  unfold nonEmpty. rewrite negb_true_iff. split.
  - intros H ->. discriminate.
  - intros H. destruct (String.eqb_spec s ""); [contradiction|reflexivity].
Qed.

Lemma nonEmpty_false (s : string) : nonEmpty s = false <-> s = "".
Proof.
  unfold nonEmpty. rewrite negb_false_iff. apply String.eqb_eq.
Qed.

Lemma supports_true (supported : gset string) (l : string) :
  supports supported l = true <-> l ∈ supported.
Proof. unfold supports. apply bool_decide_eq_true. Qed.

Lemma supports_false (supported : gset string) (l : string) :
  supports supported l = false <-> l ∉ supported.
Proof. unfold supports. apply bool_decide_eq_false. Qed.

(** A source yields a locale when it is non-empty and supported. *)
Lemma accepted_false (supported : gset string) (l : string) :
  l = "" \/ l ∉ supported -> nonEmpty l && supports supported l = false.
Proof.
  intros [-> | H]; [reflexivity|].
  apply andb_false_iff. right. now apply supports_false.
Qed.

Section Negotiation.
Context {unicode : Unicode} {neturl : NetURL} {strconv : Strconv}.

(** What the Language handler hands to the rest of the chain once it has
    resolved [lang]: the locale in the key/value store and in the request's
    context, and the Content-Language header. *)
Definition negotiated (c : Context) (req : Request) (lang : string) : Context :=
  Header
    (withRequestContext (Set_ c "language" (VString lang)) req
       (WithLanguage (reqContext req) lang))
    "Content-Language" lang.

Lemma Language_unfold (cfg : LanguageConfig) (next : Handler) (c : Context) (req : Request) :
  Request_ c = Some req ->
  Language cfg next c =
  next (negotiated c req
          (resolveLanguage (Some c) (supportedMapOf cfg) (normalizeDefault (Default cfg))
             (queryParamOf cfg) (cookieNameOf cfg))).
Proof.
  intros Hreq. unfold Language, deref, negotiated. simpl. rewrite Hreq. reflexivity.
Qed.

(** C1, as amended: when the query parameter (configured name, default
    "lang"), trimmed and lower-cased, is non-empty and supported, it is the
    resolved locale, whatever the path, the cookies and the headers of the
    request are; the handler stores it and passes control on. *)
Theorem Language_query_priority (cfg : LanguageConfig) (next : Handler)
    (c : Context) (req : Request) :
  Request_ c = Some req ->
  let lang := ToLower (TrimSpace (Query req (queryParamOf cfg))) in
  lang <> "" ->
  lang ∈ supportedMapOf cfg ->
  resolveLanguage (Some c) (supportedMapOf cfg) (normalizeDefault (Default cfg))
    (queryParamOf cfg) (cookieNameOf cfg) = lang
  /\ Language cfg next c = next (negotiated c req lang).
Proof.
  intros Hreq lang Hne Hsup.
  assert (Hres : resolveLanguage (Some c) (supportedMapOf cfg)
                   (normalizeDefault (Default cfg)) (queryParamOf cfg)
                   (cookieNameOf cfg) = lang).
  { unfold resolveLanguage. rewrite Hreq. fold lang.
    apply nonEmpty_true in Hne. apply supports_true in Hsup.
    now rewrite Hne, Hsup. }
  split; [exact Hres|].
  rewrite (Language_unfold cfg next c req Hreq). now rewrite Hres.
Qed.

(** C6: when neither the query parameter, nor the path, nor the cookie, nor
    the Accept-Language header yields a supported locale, the resolver
    returns its fallback as it is; nothing is asked of the fallback. *)
Theorem resolveLanguage_fallback (c : Context) (req : Request)
    (supported : gset string) (fallback queryParam cookieName : string) :
  Request_ c = Some req ->
  (let l := ToLower (TrimSpace (Query req queryParam)) in
   l = "" \/ l ∉ supported) ->
  (let l := extractLanguageFromPath (URL_Path req) in
   l = "" \/ l ∉ supported) ->
  (cookieName = "" \/
   forall v, GetCookie req cookieName = Some v ->
             v = "" \/ ToLower (TrimSpace v) ∉ supported) ->
  (let header := GetHeader req "Accept-Language" in
   header = "" \/ ParseAcceptLanguage header supported = "") ->
  resolveLanguage (Some c) supported fallback queryParam cookieName = fallback.
Proof.
  intros Hreq Hquery Hpath Hcookie Hheader.
  unfold resolveLanguage. rewrite Hreq.
  rewrite (accepted_false _ _ Hquery), (accepted_false _ _ Hpath).
  assert (Hc : (if nonEmpty cookieName then
                  match GetCookie req cookieName with
                  | Some lang =>
                      if nonEmpty lang then
                        if supports supported (ToLower (TrimSpace lang))
                        then Some (ToLower (TrimSpace lang)) else None
                      else None
                  | None => None
                  end
                else None) = None).
  { destruct Hcookie as [-> | Hv]; [reflexivity|].
    destruct (nonEmpty cookieName); [|reflexivity].
    destruct (GetCookie req cookieName) as [v|]; [|reflexivity].
    destruct (Hv v eq_refl) as [-> | Hns]; [reflexivity|].
    apply supports_false in Hns. rewrite Hns.
    now destruct (nonEmpty v). }
  rewrite Hc.
  destruct Hheader as [-> | ->]; [reflexivity|].
  now destruct (nonEmpty (GetHeader req "Accept-Language")).
Qed.

(** The default that Language passes to the resolver is the configured one
    trimmed and lower-cased, "en" when that is empty. *)
Lemma Language_default (cfg : LanguageConfig) (next : Handler) (c : Context) (req : Request) :
  Request_ c = Some req ->
  resolveLanguage (Some c) (supportedMapOf cfg) (normalizeDefault (Default cfg))
    (queryParamOf cfg) (cookieNameOf cfg) = normalizeDefault (Default cfg) ->
  Language cfg next c = next (negotiated c req (normalizeDefault (Default cfg))).
Proof.
  intros Hreq Hres. rewrite (Language_unfold cfg next c req Hreq). now rewrite Hres.
Qed.

End Negotiation.

(** GetLanguage on a context that has a request: the three tiers. *)
Lemma GetLanguage_tiers (c : Context) (req : Request) :
  Request_ c = Some req ->
  GetLanguage (Some c) =
  Ok (match Keys c !! "language" with
      | Some (VString s) =>
          if nonEmpty s then s
          else if nonEmpty (LanguageFromContext (reqContext req))
               then LanguageFromContext (reqContext req) else "en"
      | _ =>
          if nonEmpty (LanguageFromContext (reqContext req))
          then LanguageFromContext (reqContext req) else "en"
      end).
Proof.
  intros Hreq. unfold GetLanguage, deref. rewrite Hreq.
  destruct (Keys c !! "language") as [[s|]|]; simpl;
    try destruct (nonEmpty s); simpl;
    destruct (nonEmpty (LanguageFromContext (reqContext req))); reflexivity.
Qed.

Lemma GetLanguage_nil : GetLanguage None = Ok "en".
Proof. reflexivity. Qed.

(** A gin context without a request and without a stored locale, as
    gin.CreateTestContext returns it. *)
Definition bareContext : Context :=
  mkContext None ∅ SameSiteDefaultMode ∅ [] None false.

(** C8 fails on the code: on a context whose Request is nil and that holds
    no locale, GetLanguage dereferences the nil request and panics, where
    resolveLanguage tests [c.Request == nil] first. *)
Theorem GetLanguage_nil_request_panics :
  GetLanguage (Some bareContext) = Panic nilDeref.
Proof. reflexivity. Qed.

(** *** The canonicalization middleware *)

Lemma append_assoc (a b c : string) : (a +:+ b) +:+ c = a +:+ (b +:+ c).
Proof.
  induction a as [|x a IH]; [reflexivity|].
  rewrite !append_cons. now rewrite IH.
Qed.

Lemma append_nil_r (a : string) : a +:+ "" = a.
Proof.
  induction a as [|x a IH]; [reflexivity|].
  rewrite append_cons. now rewrite IH.
Qed.

Section Exemptions.
Context {unicode : Unicode}.

(** The exemption rules in the words of the specification: a configured
    prefix, one of the four operational paths, or a configured extension
    at the end of the lower-cased path. *)
Definition operationalPaths : list string :=
  ["/health"; "/healthz"; "/readyz"; "/runtime-config.js"].

Definition exempt (path : string) (skipPaths skipExtensions : list string) : Prop :=
  (exists prefix, prefix ∈ skipPaths /\ HasPrefix path prefix = true)
  \/ path ∈ operationalPaths
  \/ (exists ext, ext ∈ skipExtensions /\ HasSuffix (ToLower path) ext = true).

Lemma existsb_elem_of {A} (f : A -> bool) (l : list A) :
  existsb f l = true <-> exists x, x ∈ l /\ f x = true.
Proof.
  rewrite existsb_exists. split; intros (x & Hx & Hf); exists x; split; auto;
    now apply list_elem_of_In.
Qed.

Lemma shouldSkipRedirect_exempt (path : string) (skipPaths skipExtensions : list string) :
  shouldSkipRedirect path skipPaths skipExtensions = true
  <-> exempt path skipPaths skipExtensions.
Proof.
  unfold shouldSkipRedirect, exempt, operationalPaths. split.
  - destruct (existsb (fun prefix => HasPrefix path prefix) skipPaths) eqn:Hp.
    { intros _. left. now apply existsb_elem_of in Hp. }
    destruct (String.eqb_spec path "/health") as [->|_]; simpl.
    { intros _. right. left. set_solver. }
    destruct (String.eqb_spec path "/healthz") as [->|_]; simpl.
    { intros _. right. left. set_solver. }
    destruct (String.eqb_spec path "/readyz") as [->|_]; simpl.
    { intros _. right. left. set_solver. }
    destruct (String.eqb_spec path "/runtime-config.js") as [->|_]; simpl.
    { intros _. right. left. set_solver. }
    destruct (existsb (fun ext => HasSuffix (ToLower path) ext) skipExtensions) eqn:He;
      [|discriminate].
    intros _. right. right. now apply existsb_elem_of in He.
  - intros [Hp | [Hfixed | He]].
    + replace (existsb (fun prefix => HasPrefix path prefix) skipPaths) with true
        by (symmetry; apply existsb_elem_of; exact Hp).
      reflexivity.
    + destruct (existsb _ skipPaths); [reflexivity|].
      repeat (apply elem_of_cons in Hfixed as [->|Hfixed]; [reflexivity|]).
      inversion Hfixed.
    + replace (existsb (fun ext => HasSuffix (ToLower path) ext) skipExtensions)
        with true by (symmetry; apply existsb_elem_of; exact He).
      destruct (existsb _ skipPaths); [reflexivity|].
      now repeat match goal with |- context [if ?b then _ else _] => destruct b end.
Qed.

Lemma shouldSkipRedirect_not_exempt (path : string) (skipPaths skipExtensions : list string) :
  shouldSkipRedirect path skipPaths skipExtensions = false
  <-> ~ exempt path skipPaths skipExtensions.
Proof.
  rewrite <- shouldSkipRedirect_exempt.
  destruct (shouldSkipRedirect path skipPaths skipExtensions); split;
    intros H; try reflexivity; try discriminate; try congruence.
Qed.

(** A path carries a locale prefix when its first segment, extracted as the
    resolver does (two or three bytes, lower-cased), is supported. *)
Definition prefixed (supportedMap : gset string) (path : string) : Prop :=
  extractLanguageFromPath path <> ""
  /\ extractLanguageFromPath path ∈ supportedMap.

Lemma prefixed_test (supportedMap : gset string) (path : string) :
  nonEmpty (extractLanguageFromPath path)
  && supports supportedMap (extractLanguageFromPath path) = true
  <-> prefixed supportedMap path.
Proof.
  unfold prefixed. rewrite andb_true_iff, nonEmpty_true, supports_true. tauto.
Qed.

Lemma not_prefixed_test (supportedMap : gset string) (path : string) :
  nonEmpty (extractLanguageFromPath path)
  && supports supportedMap (extractLanguageFromPath path) = false
  <-> ~ prefixed supportedMap path.
Proof.
  rewrite <- prefixed_test.
  destruct (nonEmpty _ && supports _ _); split; intros H;
    try reflexivity; try discriminate; try congruence.
Qed.

End Exemptions.

Section Canonicalization.
Context {unicode : Unicode} {neturl : NetURL} {strconv : Strconv}.

(** The narrower chain in the words of the specification: the cookie, then
    Accept-Language, then the default.  It is a function of the cookie's
    value and of the header alone. *)
Definition preferredLocale (cookie : option string) (header : string)
    (supportedMap : gset string) (defaultLang : string) : string :=
  match cookie with
  | Some v =>
      if nonEmpty v && supports supportedMap (ToLower (TrimSpace v))
      then ToLower (TrimSpace v)
      else if nonEmpty header && nonEmpty (ParseAcceptLanguage header supportedMap)
           then ParseAcceptLanguage header supportedMap
           else defaultLang
  | None =>
      if nonEmpty header && nonEmpty (ParseAcceptLanguage header supportedMap)
      then ParseAcceptLanguage header supportedMap
      else defaultLang
  end.

Lemma detectPreferredLanguage_chain (c : Context) (req : Request)
    (supportedMap : gset string) (defaultLang : string) :
  Request_ c = Some req ->
  detectPreferredLanguage c supportedMap defaultLang =
  Ok (preferredLocale (GetCookie req LanguageCookieName)
        (GetHeader req "Accept-Language") supportedMap defaultLang).
Proof.
  intros Hreq. unfold detectPreferredLanguage, deref, preferredLocale.
  rewrite Hreq. simpl.
  destruct (GetCookie req LanguageCookieName) as [v|]; simpl.
  - destruct (nonEmpty v); simpl;
      [destruct (supports supportedMap (ToLower (TrimSpace v))); simpl; [reflexivity|]|];
      destruct (nonEmpty (GetHeader req "Accept-Language")); simpl; try reflexivity;
      destruct (nonEmpty (ParseAcceptLanguage _ supportedMap)); reflexivity.
  - destruct (nonEmpty (GetHeader req "Accept-Language")); simpl; try reflexivity;
      destruct (nonEmpty (ParseAcceptLanguage _ supportedMap)); reflexivity.
Qed.

(** The target of the redirect: "/" + locale + path, and "?" + query when
    the query is not empty. *)
Definition redirectTarget (locale path rawQuery : string) : string :=
  (("/" +:+ locale) +:+ path)
  +:+ (if nonEmpty rawQuery then "?" +:+ rawQuery else "").

Lemma redirectTarget_rooted (locale path rawQuery : string) :
  HasPrefix (redirectTarget locale path rawQuery) "/" = true.
Proof. reflexivity. Qed.

Lemma LanguageRedirect_unfold (cfg : LanguageRedirectConfig) (next : Handler)
    (c : Context) (req : Request) :
  RSupported cfg <> [] ->
  Request_ c = Some req ->
  LanguageRedirect cfg next c =
  let path := URL_Path req in
  let supportedMap := BuildSupportedMap (RSupported cfg) in
  if shouldSkipRedirect path (skipPathsOf cfg) (skipExtensionsOf cfg) then next c
  else if nonEmpty (extractLanguageFromPath path)
          && supports supportedMap (extractLanguageFromPath path)
  then next (setLanguageCookie c (extractLanguageFromPath path))
  else Ok (Abort (redirectedContext c req StatusFound
         (redirectTarget
            (preferredLocale (GetCookie req LanguageCookieName)
               (GetHeader req "Accept-Language") supportedMap
               (normalizeDefault (RDefault cfg)))
            path (URL_RawQuery req)))).
Proof.
  intros Hsup Hreq. unfold LanguageRedirect.
  destruct (RSupported cfg) as [|l ls] eqn:Hl; [contradiction|].
  cbn [length Nat.eqb]. cbv zeta. unfold deref at 1. rewrite Hreq.
  cbn [rbind].
  destruct (shouldSkipRedirect _ _ _); [reflexivity|].
  destruct (nonEmpty _ && supports _ _); [reflexivity|].
  rewrite (detectPreferredLanguage_chain c req _ _ Hreq). cbn [rbind].
  assert (Hcode : validRedirectCode StatusFound) by (left; unfold StatusFound; lia).
  unfold redirectTarget.
  destruct (nonEmpty (URL_RawQuery req)).
  - rewrite append_assoc. now rewrite (Redirect_ok c req _ _ Hreq Hcode).
  - rewrite append_nil_r. now rewrite (Redirect_ok c req _ _ Hreq Hcode).
Qed.

End Canonicalization.

Section SupportedMaps.
Context {unicode : Unicode}.

Lemma supportedMapOf_nil (cfg : LanguageConfig) :
  Supported cfg = [] -> supportedMapOf cfg = {[ "en" ]}.
Proof.
  intros H. unfold supportedMapOf. rewrite H. cbn [BuildSupportedMap foldl].
  rewrite bool_decide_eq_true_2 by apply size_empty.
  apply union_empty_r_L.
Qed.

Lemma supportedMapOf_en (cfg : LanguageConfig) :
  Supported cfg = ["en"] -> supportedMapOf cfg = {[ "en" ]}.
Proof.
  intros H. unfold supportedMapOf. rewrite H. cbn [BuildSupportedMap foldl].
  change (ToLower "en") with "en".
  rewrite union_empty_r_L.
  rewrite bool_decide_eq_false_2; [reflexivity|].
  rewrite size_singleton. discriminate.
Qed.

End SupportedMaps.

Section CanonicalizationProperties.
Context {unicode : Unicode} {neturl : NetURL} {strconv : Strconv}.

(** C7: with an empty list of supported locales, Language behaves as it
    does for the list ["en"], and LanguageRedirect hands every request to
    the rest of the chain untouched. *)
Theorem empty_supported_config (cfg : LanguageConfig) (rcfg : LanguageRedirectConfig)
    (next : Handler) (c : Context) :
  Supported cfg = [] ->
  RSupported rcfg = [] ->
  supportedMapOf cfg = {[ "en" ]}
  /\ Language cfg next c =
     Language (mkLanguageConfig ["en"] (Default cfg) (QueryParam cfg) (CookieName cfg))
       next c
  /\ LanguageRedirect rcfg next c = next c.
Proof.
  intros Hcfg Hrcfg. split; [|split].
  - now apply supportedMapOf_nil.
  - unfold Language.
    rewrite (supportedMapOf_en
               (mkLanguageConfig ["en"] (Default cfg) (QueryParam cfg) (CookieName cfg))
               eq_refl).
    rewrite (supportedMapOf_nil cfg Hcfg).
    reflexivity.
  - unfold LanguageRedirect. rewrite Hrcfg. reflexivity.
Qed.

(** C3, as amended: when the list of supported locales is not empty, an
    exempt request passes through unchanged; a request whose path carries a
    supported locale prefix passes through without a redirect (with the
    preference cookie when it is not exempt); any other request is
    redirected with status 302 and the chain stops. *)
Theorem LanguageRedirect_decision (cfg : LanguageRedirectConfig) (next : Handler)
    (c : Context) (req : Request) :
  RSupported cfg <> [] ->
  Request_ c = Some req ->
  let path := URL_Path req in
  let supportedMap := BuildSupportedMap (RSupported cfg) in
  let isExempt := exempt path (skipPathsOf cfg) (skipExtensionsOf cfg) in
  (isExempt -> LanguageRedirect cfg next c = next c)
  /\ (prefixed supportedMap path ->
      exists c', LanguageRedirect cfg next c = next c'
                 /\ redirected c' = redirected c /\ aborted c' = aborted c)
  /\ (~ isExempt -> prefixed supportedMap path ->
      LanguageRedirect cfg next c =
      next (setLanguageCookie c (extractLanguageFromPath path)))
  /\ (~ isExempt -> ~ prefixed supportedMap path ->
      exists location c',
        Redirect c 302 location = Ok c'
        /\ LanguageRedirect cfg next c = Ok (Abort c')).
Proof.
  intros Hsup Hreq path supportedMap isExempt.
  rewrite (LanguageRedirect_unfold cfg next c req Hsup Hreq). cbv zeta.
  fold path. fold supportedMap.
  repeat split.
  - intros He. apply shouldSkipRedirect_exempt in He. now rewrite He.
  - intros Hp. apply prefixed_test in Hp. rewrite Hp.
    destruct (shouldSkipRedirect path _ _).
    + exists c. repeat split.
    + exists (setLanguageCookie c (extractLanguageFromPath path)). repeat split.
  - intros He Hp. apply shouldSkipRedirect_not_exempt in He.
    apply prefixed_test in Hp. now rewrite He, Hp.
  - intros He Hp. apply shouldSkipRedirect_not_exempt in He.
    apply not_prefixed_test in Hp. rewrite He, Hp.
    eexists. eexists. split; [|reflexivity].
    apply (Redirect_ok c req 302 _ Hreq). left. lia.
Qed.

(** C4, as amended: a request that LanguageRedirect redirects gets status
    302 and the chain stops there, whatever the downstream handlers are.
    The locale comes from the cookie if it holds a supported locale, else
    from the Accept-Language header if it has a supported entry, else from
    the default; query parameter and path play no part.  The Location is
    what net/http makes of "/" + locale + path, with "?" + query when the
    query is not empty: the part before the first '?' cleaned by
    path.Clean, bytes above 127 escaped.  It is exactly that URL when the
    URL is ASCII and its part before the first '?' is a clean path. *)
Theorem LanguageRedirect_redirect (cfg : LanguageRedirectConfig) (next : Handler)
    (c : Context) (req : Request) :
  RSupported cfg <> [] ->
  Request_ c = Some req ->
  ~ exempt (URL_Path req) (skipPathsOf cfg) (skipExtensionsOf cfg) ->
  ~ prefixed (BuildSupportedMap (RSupported cfg)) (URL_Path req) ->
  let supportedMap := BuildSupportedMap (RSupported cfg) in
  let header := GetHeader req "Accept-Language" in
  let defaultLang := normalizeDefault (RDefault cfg) in
  let preferred := preferredLocale (GetCookie req "lang") header supportedMap defaultLang in
  let target := redirectTarget preferred (URL_Path req) (URL_RawQuery req) in
  let noCookieLocale :=
    forall v, GetCookie req "lang" = Some v ->
              v = "" \/ ToLower (TrimSpace v) ∉ supportedMap in
  (exists c',
     LanguageRedirect cfg next c = Ok c'
     /\ redirected c' = Some (302, redirectLocation req target)
     /\ respHeader c' !! "Location" = Some (redirectLocation req target)
     /\ aborted c' = true
     /\ (forall next' : Handler, LanguageRedirect cfg next' c = Ok c'))
  /\ (isASCII target = true -> GoPath.Clean (pathPart target) = pathPart target ->
      redirectLocation req target = target)
  /\ (forall v, GetCookie req "lang" = Some v -> v <> "" ->
                ToLower (TrimSpace v) ∈ supportedMap ->
                preferred = ToLower (TrimSpace v))
  /\ (noCookieLocale ->
      (exists e, e ∈ entries header /\ supports supportedMap (lang e) = true
                 /\ ((-1) <? q e)%float = true) ->
      preferred = ParseAcceptLanguage header supportedMap
      /\ exists e, e ∈ entries header /\ lang e ∈ supportedMap /\ preferred = lang e)
  /\ (noCookieLocale ->
      (forall e, e ∈ entries header -> supports supportedMap (lang e) = true ->
                 ((-1) <? q e)%float = false) ->
      preferred = defaultLang).
Proof.
  intros Hsup Hreq He Hp supportedMap header defaultLang preferred target noCookieLocale.
  apply shouldSkipRedirect_not_exempt in He. apply not_prefixed_test in Hp.
  assert (Hall : forall n : Handler,
            LanguageRedirect cfg n c = Ok (Abort (redirectedContext c req 302 target))).
  { intros n. rewrite (LanguageRedirect_unfold cfg n c req Hsup Hreq). cbv zeta.
    now rewrite He, Hp. }
  assert (Hnone : noCookieLocale ->
            preferred = if nonEmpty header && nonEmpty (ParseAcceptLanguage header supportedMap)
                        then ParseAcceptLanguage header supportedMap else defaultLang).
  { intros Hno. unfold preferred, preferredLocale.
    destruct (GetCookie req "lang") as [v|]; [|reflexivity].
    destruct (Hno v eq_refl) as [-> | Hv]; [reflexivity|].
    apply supports_false in Hv. rewrite Hv. now rewrite andb_false_r. }
  split; [|split; [|split; [|split]]].
  - exists (Abort (redirectedContext c req 302 target)).
    split; [apply Hall|]. split; [reflexivity|]. split.
    + unfold Abort, redirectedContext, redirectHeader. cbn [respHeader].
      destruct (bool_decide _); [apply lookup_insert_eq|].
      destruct (_ || _); [|apply lookup_insert_eq].
      rewrite lookup_insert_ne by discriminate. apply lookup_insert_eq.
    + split; [reflexivity|exact Hall].
  - intros Hascii Hclean.
    apply redirectLocation_clean; [exact Hascii|apply redirectTarget_rooted|exact Hclean].
  - intros v Hv Hne Hin. unfold preferred, preferredLocale. rewrite Hv.
    apply nonEmpty_true in Hne. apply supports_true in Hin. now rewrite Hne, Hin.
  - intros Hno Hentry. rewrite (Hnone Hno).
    destruct (ParseAcceptLanguage_entry header supportedMap Hentry)
      as (e & He1 & He2 & He3 & He4).
    assert (Hh : nonEmpty header = true).
    { apply nonEmpty_true. intros Hh. rewrite Hh in He1. inversion He1. }
    assert (Hl : nonEmpty (ParseAcceptLanguage header supportedMap) = true).
    { apply nonEmpty_true. now rewrite He4. }
    rewrite Hh, Hl. split; [reflexivity|]. now exists e.
  - intros Hno Hentries. rewrite (Hnone Hno).
    replace (ParseAcceptLanguage header supportedMap) with "".
    + now rewrite andb_false_r.
    + symmetry. unfold ParseAcceptLanguage.
      destruct (selected_foldl supportedMap (candidates header))
        as [[_ ->] | (pre & e & post & Hcs & _ & Hs & Hq & _)]; [reflexivity|].
      rewrite (Hentries e) in Hq; [discriminate| |exact Hs].
      rewrite <- candidates_entries, Hcs.
      apply elem_of_app. right. apply elem_of_cons. now left.
Qed.

(** C5, as amended: let L be a supported locale without white space at its
    ends.  A non-exempt request whose path starts with the segment L passes
    through and sets the cookie lang=L; a later non-exempt request that
    carries this cookie, has no supported path prefix and no
    Accept-Language header is redirected with status 302 to what net/http
    makes of "/" + L + its path (and "?" + its query): the part before the
    first '?' cleaned by path.Clean, bytes above 127 escaped.  The Location
    is exactly that URL when the URL is ASCII and its part before the first
    '?' is a clean path. *)
Theorem cookie_round_trip (cfg : LanguageRedirectConfig) (next : Handler)
    (c1 c2 : Context) (req1 req2 : Request) (L : string) :
  Request_ c1 = Some req1 ->
  Request_ c2 = Some req2 ->
  ~ exempt (URL_Path req1) (skipPathsOf cfg) (skipExtensionsOf cfg) ->
  extractLanguageFromPath (URL_Path req1) = L ->
  L <> "" ->
  L ∈ BuildSupportedMap (RSupported cfg) ->
  TrimSpace L = L ->
  ~ exempt (URL_Path req2) (skipPathsOf cfg) (skipExtensionsOf cfg) ->
  ~ prefixed (BuildSupportedMap (RSupported cfg)) (URL_Path req2) ->
  GetHeader req2 "Accept-Language" = "" ->
  GetCookie req2 "lang" = Some L ->
  let target := redirectTarget L (URL_Path req2) (URL_RawQuery req2) in
  LanguageRedirect cfg next c1 = next (setLanguageCookie c1 L)
  /\ respCookies (setLanguageCookie c1 L) =
     (respCookies c1 ++ [mkCookie "lang" L 31536000 "/" "" SameSiteLaxMode false false])%list
  /\ (exists c2',
        LanguageRedirect cfg next c2 = Ok c2'
        /\ redirected c2' = Some (302, redirectLocation req2 target)
        /\ aborted c2' = true)
  /\ (isASCII target = true -> GoPath.Clean (pathPart target) = pathPart target ->
      redirectLocation req2 target = target).
Proof.
  intros Hreq1 Hreq2 He1 HL Hne Hsup Htrim He2 Hp2 Hhdr Hck target.
  assert (Hcfg : RSupported cfg <> []).
  { intros Hnil. rewrite Hnil in Hsup. cbn in Hsup. set_solver. }
  assert (Hlow : ToLower L = L).
  { rewrite <- HL. unfold extractLanguageFromPath.
    destruct (SplitN _ _ _) as [|first rest]; [reflexivity|].
    destruct (_ || _); [apply ToLower_idem|reflexivity]. }
  apply shouldSkipRedirect_not_exempt in He1, He2.
  apply not_prefixed_test in Hp2.
  apply nonEmpty_true in Hne. apply supports_true in Hsup.
  split; [|split; [|split]].
  - rewrite (LanguageRedirect_unfold cfg next c1 req1 Hcfg Hreq1). cbv zeta.
    now rewrite He1, HL, Hne, Hsup.
  - reflexivity.
  - exists (Abort (redirectedContext c2 req2 302 target)).
    split; [|split; reflexivity].
    rewrite (LanguageRedirect_unfold cfg next c2 req2 Hcfg Hreq2). cbv zeta.
    rewrite He2, Hp2.
    change LanguageCookieName with "lang".
    rewrite Hck, Hhdr. unfold preferredLocale.
    now rewrite Htrim, Hlow, Hne, Hsup.
  - intros Hascii Hclean.
    apply redirectLocation_clean; [exact Hascii|apply redirectTarget_rooted|exact Hclean].
Qed.

End CanonicalizationProperties.

(** *** Concrete requests *)

Section Requests.
#[local] Existing Instance bytewise.
#[local] Existing Instance plainURLs.
#[local] Existing Instance decimalStrconv.

Definition request (path rawQuery : string)
    (query cookies headers : gmap string string) : Request :=
  mkRequest "GET" path rawQuery query cookies headers Background.

Definition contextOf (req : Request) : Context :=
  mkContext (Some req) ∅ SameSiteDefaultMode ∅ [] None false.

(** The end of the chain: a handler that leaves the context as it is. *)
Definition serve : Handler := fun c => Ok c.

Definition cfgEnJaKo : LanguageConfig :=
  mkLanguageConfig ["en"; "ja"; "ko"] "en" "" "".

Definition redirectEnJaKo : LanguageRedirectConfig :=
  mkLanguageRedirectConfig ["en"; "ja"; "ko"] "en" [] [].

(** /ko/galleries?lang=JA with a cookie and an Accept-Language header that
    name other locales *)
Definition reqQueryJa : Request :=
  request "/ko/galleries" "lang=JA" {[ "lang" := "JA" ]} {[ "lang" := "ko" ]}
          {[ "Accept-Language" := "en" ]}.

Lemma Language_query_priority_witness :
  resolveLanguage (Some (contextOf reqQueryJa)) (supportedMapOf cfgEnJaKo)
    (normalizeDefault (Default cfgEnJaKo)) (queryParamOf cfgEnJaKo)
    (cookieNameOf cfgEnJaKo) = "ja"
  /\ Language cfgEnJaKo serve (contextOf reqQueryJa)
     = serve (negotiated (contextOf reqQueryJa) reqQueryJa "ja").
Proof.
  apply (Language_query_priority cfgEnJaKo serve
           (contextOf reqQueryJa) reqQueryJa).
  - reflexivity.
  - vm_compute. discriminate.
  - apply supports_true. vm_compute. reflexivity.
Defined.

(** C1 as stated fails when the empty string is configured as a locale: an
    empty query value is then a member of the supported set, and the
    resolver goes on to the other sources. *)
Lemma resolveLanguage_empty_query :
  let cfg := mkLanguageConfig [""; "en"] "en" "" "" in
  let req := request "/galleries" "lang=" {[ "lang" := "" ]} ∅ ∅ in
  ToLower (TrimSpace (Query req (queryParamOf cfg))) = ""
  /\ supports (supportedMapOf cfg) "" = true
  /\ resolveLanguage (Some (contextOf req)) (supportedMapOf cfg)
       (normalizeDefault (Default cfg)) (queryParamOf cfg) (cookieNameOf cfg) = "en".
Proof. repeat split; vm_compute; reflexivity. Qed.

(** /test with Accept-Language: fr,de *)
Definition reqFrDe : Request :=
  request "/test" "" ∅ ∅ {[ "Accept-Language" := "fr,de" ]}.

Lemma resolveLanguage_fallback_witness :
  resolveLanguage (Some (contextOf reqFrDe)) {[ "en"; "ja" ]}
    "xx" "lang" "lang" = "xx"
  /\ supports {[ "en"; "ja" ]} "xx" = false.
Proof.
  split; [|vm_compute; reflexivity].
  apply (resolveLanguage_fallback (contextOf reqFrDe) reqFrDe).
  - reflexivity.
  - left. vm_compute. reflexivity.
  - left. vm_compute. reflexivity.
  - right. intros v Hv. vm_compute in Hv. discriminate.
  - right. vm_compute. reflexivity.
Defined.

Example language_default_scenario :
  Language (mkLanguageConfig ["en"; "ja"] "en" "" "") serve
    (contextOf reqFrDe)
  = serve (negotiated (contextOf reqFrDe) reqFrDe "en").
Proof. vm_compute. reflexivity. Qed.

(** /galleries with Accept-Language: fr *)
Definition reqGalleries : Request :=
  request "/galleries" "" ∅ ∅ {[ "Accept-Language" := "fr" ]}.

Lemma empty_supported_config_witness :
  supportedMapOf (mkLanguageConfig [] "ja" "" "") = {[ "en" ]}
  /\ Language (mkLanguageConfig [] "ja" "" "") serve (contextOf reqGalleries)
     = Language
         (mkLanguageConfig ["en"] (Default (mkLanguageConfig [] "ja" "" ""))
            (QueryParam (mkLanguageConfig [] "ja" "" ""))
            (CookieName (mkLanguageConfig [] "ja" "" "")))
         serve (contextOf reqGalleries)
  /\ LanguageRedirect (mkLanguageRedirectConfig [] "ja" [] []) serve
       (contextOf reqGalleries)
     = serve (contextOf reqGalleries).
Proof.
  apply (empty_supported_config (mkLanguageConfig [] "ja" "" "")
           (mkLanguageRedirectConfig [] "ja" [] []) serve (contextOf reqGalleries));
    reflexivity.
Defined.

(** /api/v1/videos, /ja/galleries?foo=1 and /galleries?foo=1 with a cookie *)
Definition reqApi : Request := request "/api/v1/videos" "" ∅ ∅ ∅.

Definition reqJaGalleries : Request :=
  request "/ja/galleries" "foo=1" {[ "foo" := "1" ]} ∅ ∅.

Definition reqCookieJa : Request :=
  request "/galleries" "foo=1" {[ "foo" := "1" ]} {[ "lang" := "ja" ]} ∅.

Lemma not_exempt_by_test (path : string) (cfg : LanguageRedirectConfig) :
  shouldSkipRedirect path (skipPathsOf cfg) (skipExtensionsOf cfg) = false ->
  ~ exempt path (skipPathsOf cfg) (skipExtensionsOf cfg).
Proof. apply shouldSkipRedirect_not_exempt. Qed.

Lemma LanguageRedirect_decision_witness :
  LanguageRedirect redirectEnJaKo serve (contextOf reqApi)
  = serve (contextOf reqApi)
  /\ LanguageRedirect redirectEnJaKo serve (contextOf reqJaGalleries)
     = serve (setLanguageCookie (contextOf reqJaGalleries) "ja")
  /\ exists location c',
       Redirect (contextOf reqGalleries) 302 location = Ok c'
       /\ LanguageRedirect redirectEnJaKo serve (contextOf reqGalleries) = Ok (Abort c').
Proof.
  split; [|split].
  - apply (LanguageRedirect_decision redirectEnJaKo serve
             (contextOf reqApi) reqApi); [discriminate|reflexivity|].
    apply shouldSkipRedirect_exempt. vm_compute. reflexivity.
  - apply (LanguageRedirect_decision redirectEnJaKo serve
             (contextOf reqJaGalleries) reqJaGalleries); [discriminate|reflexivity| |].
    + apply not_exempt_by_test. vm_compute. reflexivity.
    + apply prefixed_test. vm_compute. reflexivity.
  - apply (LanguageRedirect_decision redirectEnJaKo serve
             (contextOf reqGalleries) reqGalleries); [discriminate|reflexivity| |].
    + apply not_exempt_by_test. vm_compute. reflexivity.
    + apply not_prefixed_test. vm_compute. reflexivity.
Defined.

(** C3 as stated fails when no locale is configured: /galleries is neither
    exempt nor prefixed, and it passes through without a redirect. *)
Lemma LanguageRedirect_empty_config_passes :
  let cfg := mkLanguageRedirectConfig [] "en" [] [] in
  shouldSkipRedirect "/galleries" (skipPathsOf cfg) (skipExtensionsOf cfg) = false
  /\ extractLanguageFromPath "/galleries" = ""
  /\ LanguageRedirect cfg serve (contextOf reqGalleries)
     = Ok (contextOf reqGalleries)
  /\ redirected (contextOf reqGalleries) = None.
Proof. repeat split; vm_compute; reflexivity. Qed.

(** /galleries with Accept-Language: ko-KR,ko;q=0.9,en;q=0.8 *)
Definition reqGalleriesKo : Request :=
  request "/galleries" "" ∅ ∅ {[ "Accept-Language" := "ko-KR,ko;q=0.9,en;q=0.8" ]}.

(** The locale of the header, the locale of the cookie with the query kept,
    and the default locale for a header that names no supported one. *)
Lemma LanguageRedirect_redirect_witness :
  ((exists c',
      LanguageRedirect redirectEnJaKo serve (contextOf reqGalleriesKo) = Ok c'
      /\ redirected c' = Some (302, "/ko/galleries")
      /\ respHeader c' !! "Location" = Some "/ko/galleries"
      /\ aborted c' = true
      /\ (forall next' : Handler,
            LanguageRedirect redirectEnJaKo next' (contextOf reqGalleriesKo) = Ok c'))
   /\ redirectLocation reqGalleriesKo "/ko/galleries" = "/ko/galleries"
   /\ ParseAcceptLanguage "ko-KR,ko;q=0.9,en;q=0.8" {[ "en"; "ja"; "ko" ]} = "ko"
   /\ exists e, e ∈ entries "ko-KR,ko;q=0.9,en;q=0.8"
                /\ lang e ∈ ({[ "en"; "ja"; "ko" ]} : gset string) /\ "ko" = lang e)
  /\ ((exists c',
         LanguageRedirect redirectEnJaKo serve (contextOf reqCookieJa) = Ok c'
         /\ redirected c' = Some (302, "/ja/galleries?foo=1")
         /\ respHeader c' !! "Location" = Some "/ja/galleries?foo=1"
         /\ aborted c' = true
         /\ (forall next' : Handler,
               LanguageRedirect redirectEnJaKo next' (contextOf reqCookieJa) = Ok c'))
      /\ redirectLocation reqCookieJa "/ja/galleries?foo=1" = "/ja/galleries?foo=1")
  /\ (exists c',
        LanguageRedirect redirectEnJaKo serve (contextOf reqGalleries) = Ok c'
        /\ redirected c' = Some (302, "/en/galleries")
        /\ respHeader c' !! "Location" = Some "/en/galleries"
        /\ aborted c' = true
        /\ (forall next' : Handler,
              LanguageRedirect redirectEnJaKo next' (contextOf reqGalleries) = Ok c')).
Proof.
  split; [|split].
  - assert (He : ~ exempt (URL_Path reqGalleriesKo) (skipPathsOf redirectEnJaKo)
                   (skipExtensionsOf redirectEnJaKo)).
    { apply not_exempt_by_test. vm_compute. reflexivity. }
    assert (Hp : ~ prefixed (BuildSupportedMap (RSupported redirectEnJaKo))
                   (URL_Path reqGalleriesKo)).
    { apply not_prefixed_test. vm_compute. reflexivity. }
    assert (Hcfg : RSupported redirectEnJaKo <> []) by discriminate.
    destruct (LanguageRedirect_redirect redirectEnJaKo serve
                (contextOf reqGalleriesKo) reqGalleriesKo Hcfg eq_refl He Hp)
      as (Hredirect & Hclean & _ & Hheader & _).
    split; [exact Hredirect|]. split; [apply Hclean; reflexivity|].
    apply Hheader.
    + intros v Hv. vm_compute in Hv. discriminate.
    + exists (mkCandidate "ko" 1%float). split; [|split; vm_compute; reflexivity].
      replace (entries (GetHeader reqGalleriesKo "Accept-Language"))
        with (mkCandidate "ko" 1%float
              :: tail (entries (GetHeader reqGalleriesKo "Accept-Language")))
        by (vm_compute; reflexivity).
      apply elem_of_cons. now left.
  - assert (He : ~ exempt (URL_Path reqCookieJa) (skipPathsOf redirectEnJaKo)
                   (skipExtensionsOf redirectEnJaKo)).
    { apply not_exempt_by_test. vm_compute. reflexivity. }
    assert (Hp : ~ prefixed (BuildSupportedMap (RSupported redirectEnJaKo))
                   (URL_Path reqCookieJa)).
    { apply not_prefixed_test. vm_compute. reflexivity. }
    assert (Hcfg : RSupported redirectEnJaKo <> []) by discriminate.
    destruct (LanguageRedirect_redirect redirectEnJaKo serve
                (contextOf reqCookieJa) reqCookieJa Hcfg eq_refl He Hp)
      as (Hredirect & Hclean & _).
    split; [exact Hredirect|]. apply Hclean; reflexivity.
  - refine (proj1 (LanguageRedirect_redirect redirectEnJaKo serve
                     (contextOf reqGalleries) reqGalleries _ _ _ _));
      [discriminate|reflexivity| |].
    + apply not_exempt_by_test. vm_compute. reflexivity.
    + apply not_prefixed_test. vm_compute. reflexivity.
Defined.

(** C4 as stated fails on a path that is not clean: for //galleries the
    handler builds "/en//galleries", and the Location that net/http sends
    is "/en/galleries". *)
Lemma LanguageRedirect_unclean_path :
  let req := request "//galleries" "" ∅ ∅ ∅ in
  shouldSkipRedirect (URL_Path req) (skipPathsOf redirectEnJaKo)
    (skipExtensionsOf redirectEnJaKo) = false
  /\ extractLanguageFromPath (URL_Path req) = ""
  /\ redirectTarget "en" (URL_Path req) (URL_RawQuery req) = "/en//galleries"
  /\ exists c',
       LanguageRedirect redirectEnJaKo serve (contextOf req) = Ok c'
       /\ redirected c' = Some (302, "/en/galleries")
       /\ respHeader c' !! "Location" = Some "/en/galleries".
Proof.
  intros req. repeat split; try (vm_compute; reflexivity).
  eexists. repeat split; vm_compute; reflexivity.
Qed.

Lemma cookie_round_trip_witness :
  LanguageRedirect redirectEnJaKo serve (contextOf reqJaGalleries)
  = serve (setLanguageCookie (contextOf reqJaGalleries) "ja")
  /\ respCookies (setLanguageCookie (contextOf reqJaGalleries) "ja")
     = (respCookies (contextOf reqJaGalleries)
        ++ [mkCookie "lang" "ja" 31536000 "/" "" SameSiteLaxMode false false])%list
  /\ (exists c2',
        LanguageRedirect redirectEnJaKo serve (contextOf reqCookieJa) = Ok c2'
        /\ redirected c2' = Some (302, "/ja/galleries?foo=1")
        /\ aborted c2' = true)
  /\ redirectLocation reqCookieJa "/ja/galleries?foo=1" = "/ja/galleries?foo=1".
Proof.
  assert (He1 : ~ exempt (URL_Path reqJaGalleries) (skipPathsOf redirectEnJaKo)
                  (skipExtensionsOf redirectEnJaKo)).
  { apply not_exempt_by_test. vm_compute. reflexivity. }
  assert (He2 : ~ exempt (URL_Path reqCookieJa) (skipPathsOf redirectEnJaKo)
                  (skipExtensionsOf redirectEnJaKo)).
  { apply not_exempt_by_test. vm_compute. reflexivity. }
  assert (Hp2 : ~ prefixed (BuildSupportedMap (RSupported redirectEnJaKo))
                  (URL_Path reqCookieJa)).
  { apply not_prefixed_test. vm_compute. reflexivity. }
  assert (Hsup : "ja" ∈ BuildSupportedMap (RSupported redirectEnJaKo)).
  { apply supports_true. vm_compute. reflexivity. }
  assert (Hne : "ja" <> "") by discriminate.
  destruct (cookie_round_trip redirectEnJaKo serve
              (contextOf reqJaGalleries) (contextOf reqCookieJa)
              reqJaGalleries reqCookieJa "ja"
              eq_refl eq_refl He1 eq_refl Hne Hsup eq_refl He2 Hp2 eq_refl eq_refl)
    as (Hfirst & Hcookie & Hsecond & Hclean).
  split; [exact Hfirst|]. split; [exact Hcookie|]. split; [exact Hsecond|].
  apply Hclean; reflexivity.
Defined.

(** C5 as stated fails on a later path that is not clean: with the cookie
    lang=ja set by /ja/galleries, the request for //x is redirected to
    "/ja/x", which is not its path prefixed with "/ja". *)
Lemma cookie_round_trip_unclean_path :
  let req2 := request "//x" "" ∅ {[ "lang" := "ja" ]} ∅ in
  LanguageRedirect redirectEnJaKo serve (contextOf reqJaGalleries)
  = Ok (setLanguageCookie (contextOf reqJaGalleries) "ja")
  /\ shouldSkipRedirect (URL_Path req2) (skipPathsOf redirectEnJaKo)
       (skipExtensionsOf redirectEnJaKo) = false
  /\ extractLanguageFromPath (URL_Path req2) = ""
  /\ ("/" +:+ "ja") +:+ URL_Path req2 = "/ja//x"
  /\ exists c2',
       LanguageRedirect redirectEnJaKo serve (contextOf req2) = Ok c2'
       /\ redirected c2' = Some (302, "/ja/x").
Proof.
  intros req2. repeat split; try (vm_compute; reflexivity).
  eexists. repeat split; vm_compute; reflexivity.
Qed.

(** The hypothesis on white space in the round trip: a configured locale
    is kept in the supported map as it is written, and the value of the
    cookie is trimmed before it is looked up. *)
Example cookie_round_trip_untrimmed :
  let cfg := mkLanguageRedirectConfig [" a"] "en" [] [] in
  let req1 := request "/ a/x" "" ∅ ∅ ∅ in
  let req2 := request "/x" "" ∅ {[ "lang" := " a" ]} ∅ in
  extractLanguageFromPath (URL_Path req1) = " a"
  /\ supports (BuildSupportedMap (RSupported cfg)) " a" = true
  /\ LanguageRedirect cfg serve (contextOf req1)
     = Ok (setLanguageCookie (contextOf req1) " a")
  /\ exists c2',
       LanguageRedirect cfg serve (contextOf req2) = Ok c2'
       /\ redirected c2' = Some (302, "/en/x").
Proof.
  intros cfg req1 req2. repeat split; try (vm_compute; reflexivity).
  eexists. repeat split; vm_compute; reflexivity.
Qed.

(** The extension test lower-cases the path, not the configured
    extension. *)
Example skip_extension_upper_case_path :
  shouldSkipRedirect "/assets/App.JS" defaultSkipPaths defaultSkipExtensions = true.
Proof. reflexivity. Qed.

Example skip_extension_upper_case_config :
  shouldSkipRedirect "/assets/app.js" defaultSkipPaths [".JS"] = false.
Proof. reflexivity. Qed.

(** resolveLanguage on the context without a request: the fallback. *)
Example resolveLanguage_nil_request :
  resolveLanguage (Some bareContext) {[ "en" ]} "en" "lang" "lang" = "en".
Proof. reflexivity. Qed.

Example accept_language_later_q :
  candidates "en;level=1;q=0.5" = [mkCandidate "en" 1%float].
Proof. vm_compute. reflexivity. Qed.

End Requests.

(** *** Further properties of language.go *)

Section SupportedMapProperties.
Context {unicode : Unicode}.

Lemma BuildSupportedMap_foldl (languages : list string) (m : gset string) (x : string) :
  x ∈ foldl (fun m lang => {[ ToLower lang ]} ∪ m) m languages
  <-> x ∈ m \/ exists y, y ∈ languages /\ x = ToLower y.
Proof.
  revert m. induction languages as [|l ls IH]; intros m; simpl.
  - split; [now left|]. intros [H|(y & Hy & _)]; [exact H|inversion Hy].
  - rewrite IH. rewrite elem_of_union, elem_of_singleton. split.
    + intros [[->|H]|(y & Hy & ->)].
      * right. exists l. split; [apply elem_of_cons; now left|reflexivity].
      * now left.
      * right. exists y. split; [apply elem_of_cons; now right|reflexivity].
    + intros [H|(y & Hy & ->)].
      * left. now right.
      * apply elem_of_cons in Hy as [->|Hy].
        -- left. now left.
        -- right. now exists y.
Qed.

(** X12: the supported map holds exactly the lower-cased configured
    languages, so that a language configured in any case is found under its
    lower-case form. *)
Theorem BuildSupportedMap_elem (languages : list string) (x : string) :
  x ∈ BuildSupportedMap languages <-> exists y, y ∈ languages /\ x = ToLower y.
Proof.
  unfold BuildSupportedMap. rewrite BuildSupportedMap_foldl. split.
  - intros [H|H]; [set_solver|exact H].
  - intros H. now right.
Qed.

Lemma BuildSupportedMap_lower (languages : list string) (x : string) :
  x ∈ BuildSupportedMap languages -> ToLower x = x.
Proof.
  intros H. apply BuildSupportedMap_foldl in H as [H|(y & _ & ->)]; [set_solver|].
  apply ToLower_idem.
Qed.

(** A byte string without '/'. *)
Fixpoint noSlash (s : string) : bool :=
  match s with
  | EmptyString => true
  | String c r => negb (Ascii.eqb c "/") && noSlash r
  end.

Lemma SplitN_first (seg rest : string) :
  noSlash seg = true ->
  rest = "" \/ HasPrefix rest "/" = true ->
  exists tl, SplitN (seg +:+ rest) "/" 2 = seg :: tl.
Proof.
  intros Hseg Hrest. induction seg as [|c seg IH].
  - rewrite append_nil_l. destruct Hrest as [->|Hrest]; [now exists []|].
    destruct rest as [|b rest]; [discriminate|]. cbn [HasPrefix] in Hrest.
    apply andb_true_iff in Hrest as [Hb _]. apply Ascii.eqb_eq in Hb. subst b.
    exists (SplitN rest "/" 1). reflexivity.
  - simpl in Hseg. apply andb_true_iff in Hseg as [Hc Hseg].
    apply negb_true_iff in Hc.
    destruct (IH Hseg) as [tl Htl].
    rewrite append_cons.
    change (SplitN (String c (seg +:+ rest)) "/" 2)
      with (if Ascii.eqb c "/" then "" :: SplitN (seg +:+ rest) "/" 1
            else match SplitN (seg +:+ rest) "/" 2 with
                 | h :: t => String c h :: t
                 | [] => [String c ""]
                 end).
    rewrite Hc, Htl. now exists tl.
Qed.

(** X13: for a path "/" + segment + rest, where the segment has no '/' and
    the rest is empty or starts with '/', extractLanguageFromPath returns
    the lower-cased segment when it is two or three bytes long, and the
    empty string otherwise. *)
Theorem extractLanguageFromPath_segment (seg rest : string) :
  noSlash seg = true ->
  rest = "" \/ HasPrefix rest "/" = true ->
  extractLanguageFromPath (("/" +:+ seg) +:+ rest)
  = if (len seg =? 2) || (len seg =? 3) then ToLower seg else "".
Proof.
  intros Hseg Hrest. unfold extractLanguageFromPath.
  rewrite append_assoc, TrimPrefix_app.
  destruct (SplitN_first seg rest Hseg Hrest) as [tl ->]. reflexivity.
Qed.

Lemma isASCII_sliceFrom (n : nat) (s : string) :
  isASCII s = true -> isASCII (sliceFrom n s) = true.
Proof.
  revert s. induction n as [|n IH]; intros s H; [exact H|].
  destruct s as [|c r]; [reflexivity|].
  cbn [isASCII] in H. apply andb_true_iff in H as [_ H]. now apply IH.
Qed.

Lemma isASCII_SplitN (s : string) (sep : ascii) :
  isASCII s = true ->
  forall n, Forall (fun x => isASCII x = true) (SplitN s sep n).
Proof.
  induction s as [|c r IH]; intros H n.
  - destruct n as [|[|n]]; repeat constructor.
  - cbn [isASCII] in H. apply andb_true_iff in H as [Hc Hr].
    destruct n as [|[|n]]; [constructor| |].
    + constructor; [|constructor]. cbn [isASCII]. now rewrite Hc, Hr.
    + change (SplitN (String c r) sep (S (S n)))
        with (if Ascii.eqb c sep then "" :: SplitN r sep (S n)
              else match SplitN r sep (S (S n)) with
                   | h :: t => String c h :: t
                   | [] => [String c ""]
                   end).
      destruct (Ascii.eqb c sep).
      * constructor; [reflexivity|]. now apply IH.
      * pose proof (IH Hr (S (S n))) as Hall.
        destruct (SplitN r sep (S (S n))) as [|h t].
        -- constructor; [|constructor]. cbn [isASCII]. now rewrite Hc.
        -- inversion Hall as [|? ? Hh Ht]; subst.
           constructor; [|exact Ht]. cbn [isASCII]. now rewrite Hc, Hh.
Qed.

(** X14: on a path of ASCII text, extractLanguageFromPath returns the
    empty string or a lower-case string of two or three bytes. *)
Theorem extractLanguageFromPath_shape (path : string) :
  isASCII path = true ->
  extractLanguageFromPath path = ""
  \/ ((len (extractLanguageFromPath path) = 2 \/ len (extractLanguageFromPath path) = 3)
      /\ ToLower (extractLanguageFromPath path) = extractLanguageFromPath path).
Proof.
  intros Hascii. unfold extractLanguageFromPath.
  assert (Htrim : isASCII (TrimPrefix path "/") = true).
  { unfold TrimPrefix. destruct (HasPrefix path "/"); [|exact Hascii].
    now apply isASCII_sliceFrom. }
  pose proof (isASCII_SplitN _ "/"%char Htrim 2) as Hall.
  destruct (SplitN _ _ _) as [|first parts]; [now left|].
  inversion Hall as [|? ? Hfirst _]; subst.
  destruct ((len first =? 2) || (len first =? 3)) eqn:Hlen; [|now left].
  right. split; [|apply ToLower_idem].
  unfold len in *. rewrite (ToLower_ascii _ Hfirst), lowerASCII_length.
  apply orb_true_iff in Hlen as [H|H]; apply Z.eqb_eq in H; [now left|now right].
Qed.

(** Outside ASCII a segment of three bytes may come back shorter: the
    three bytes of U+212A are lower-cased to "k". *)
Example extractLanguageFromPath_kelvin :
  @extractLanguageFromPath withKelvin ("/" +:+ kelvinSign) = "k".
Proof. reflexivity. Qed.

(** X15: LanguageFromContext reads back what WithLanguage stored: the
    lower-cased language, or, for the empty language, whatever the context
    held before (nothing for a nil context). *)
Theorem LanguageFromContext_WithLanguage (ctx : GoContext) (lang : string) :
  LanguageFromContext (WithLanguage ctx lang)
  = if nonEmpty lang then ToLower lang else LanguageFromContext ctx.
Proof.
  unfold WithLanguage. destruct (nonEmpty lang); simpl; [reflexivity|].
  now destruct ctx.
Qed.

Lemma normalizeDefault_nonempty (d : string) : normalizeDefault d <> "".
Proof.
  unfold normalizeDefault.
  destruct (nonEmpty (ToLower (TrimSpace d))) eqn:H; [|discriminate].
  now apply nonEmpty_true.
Qed.

Lemma normalizeDefault_lower (d : string) :
  ToLower (normalizeDefault d) = normalizeDefault d.
Proof.
  unfold normalizeDefault.
  destruct (nonEmpty (ToLower (TrimSpace d))); [apply ToLower_idem|reflexivity].
Qed.

Lemma supportedMapOf_lower (cfg : LanguageConfig) (x : string) :
  x ∈ supportedMapOf cfg -> ToLower x = x.
Proof.
  unfold supportedMapOf. destruct (bool_decide _).
  - rewrite elem_of_union, elem_of_singleton.
    intros [->|H]; [reflexivity|now apply BuildSupportedMap_lower in H].
  - apply BuildSupportedMap_lower.
Qed.

End SupportedMapProperties.

Section ResolutionOrder.
Context {unicode : Unicode} {neturl : NetURL} {strconv : Strconv}.

Lemma ParseAcceptLanguage_lower (header : string) (supported : gset string) :
  ToLower (ParseAcceptLanguage header supported) = ParseAcceptLanguage header supported.
Proof.
  unfold ParseAcceptLanguage.
  destruct (selected_foldl supported (candidates header))
    as [[_ ->] | (pre & c & post & Hcs & -> & _)]; [reflexivity|].
  simpl. apply (candidates_lang header).
  rewrite Hcs. apply elem_of_app. right. apply elem_of_cons. now left.
Qed.

(** The locale that a source yields, if any: the four steps of the
    resolver, each as the code tests it. *)
Definition fromQuery (req : Request) (supported : gset string) (queryParam : string)
    : option string :=
  let lang := ToLower (TrimSpace (Query req queryParam)) in
  if nonEmpty lang && supports supported lang then Some lang else None.

Definition fromPath (req : Request) (supported : gset string) : option string :=
  let lang := extractLanguageFromPath (URL_Path req) in
  if nonEmpty lang && supports supported lang then Some lang else None.

Definition fromCookie (req : Request) (supported : gset string) (cookieName : string)
    : option string :=
  if nonEmpty cookieName then
    match GetCookie req cookieName with
    | Some lang =>
        if nonEmpty lang && supports supported (ToLower (TrimSpace lang))
        then Some (ToLower (TrimSpace lang)) else None
    | None => None
    end
  else None.

Definition fromHeader (req : Request) (supported : gset string) : option string :=
  let header := GetHeader req "Accept-Language" in
  if nonEmpty header && nonEmpty (ParseAcceptLanguage header supported)
  then Some (ParseAcceptLanguage header supported) else None.

(** The resolver takes the first source that yields a locale. *)
Lemma resolveLanguage_first (c : Context) (req : Request) (supported : gset string)
    (fallback queryParam cookieName : string) :
  Request_ c = Some req ->
  resolveLanguage (Some c) supported fallback queryParam cookieName =
  match fromQuery req supported queryParam with
  | Some l => l
  | None =>
    match fromPath req supported with
    | Some l => l
    | None =>
      match fromCookie req supported cookieName with
      | Some l => l
      | None => default fallback (fromHeader req supported)
      end
    end
  end.
Proof.
  intros Hreq. unfold resolveLanguage, fromQuery, fromPath, fromCookie, fromHeader.
  rewrite Hreq.
  destruct (nonEmpty (ToLower _) && supports supported (ToLower _)); [reflexivity|].
  destruct (nonEmpty (extractLanguageFromPath _) && supports supported _); [reflexivity|].
  destruct (nonEmpty cookieName); simpl.
  - destruct (GetCookie req cookieName) as [v|]; simpl.
    + destruct (nonEmpty v); simpl;
        [destruct (supports supported (ToLower (TrimSpace v))); [reflexivity|]|];
        destruct (nonEmpty (GetHeader req "Accept-Language")); simpl; try reflexivity;
        destruct (nonEmpty (ParseAcceptLanguage _ supported)); reflexivity.
    + destruct (nonEmpty (GetHeader req "Accept-Language")); simpl; try reflexivity;
        destruct (nonEmpty (ParseAcceptLanguage _ supported)); reflexivity.
  - destruct (nonEmpty (GetHeader req "Accept-Language")); simpl; try reflexivity;
      destruct (nonEmpty (ParseAcceptLanguage _ supported)); reflexivity.
Qed.

Lemma source_cases (l : string) (supported : gset string) :
  (nonEmpty l && supports supported l = true /\ l <> "" /\ l ∈ supported)
  \/ nonEmpty l && supports supported l = false.
Proof.
  destruct (nonEmpty l && supports supported l) eqn:H; [left|now right].
  apply andb_true_iff in H as [H1 H2].
  repeat split; [now apply nonEmpty_true|now apply supports_true].
Qed.

(** What every source yields is a non-empty, lower-case, supported locale. *)
Lemma fromQuery_Some req supported queryParam l :
  fromQuery req supported queryParam = Some l ->
  l <> "" /\ l ∈ supported /\ ToLower l = l.
Proof.
  unfold fromQuery.
  destruct (source_cases (ToLower (TrimSpace (Query req queryParam))) supported)
    as [(-> & H1 & H2)| ->]; [|discriminate].
  intros [= <-]. repeat split; auto. apply ToLower_idem.
Qed.

Lemma fromPath_Some req supported l :
  fromPath req supported = Some l -> l <> "" /\ l ∈ supported /\ ToLower l = l.
Proof.
  unfold fromPath.
  destruct (source_cases (extractLanguageFromPath (URL_Path req)) supported)
    as [(-> & H1 & H2)| ->]; [|discriminate].
  intros [= <-]. repeat split; auto.
  unfold extractLanguageFromPath.
  destruct (SplitN _ _ _) as [|first parts]; [reflexivity|].
  destruct (_ || _); [apply ToLower_idem|reflexivity].
Qed.

Lemma fromCookie_Some req supported cookieName l :
  fromCookie req supported cookieName = Some l -> l ∈ supported /\ ToLower l = l.
Proof.
  unfold fromCookie. destruct (nonEmpty cookieName); [|discriminate].
  destruct (GetCookie req cookieName) as [v|]; [|discriminate].
  destruct (nonEmpty v); simpl; [|discriminate].
  destruct (supports supported (ToLower (TrimSpace v))) eqn:Hs; [|discriminate].
  intros [= <-]. split; [now apply supports_true|apply ToLower_idem].
Qed.

Lemma fromHeader_Some req supported l :
  fromHeader req supported = Some l -> l <> "" /\ l ∈ supported /\ ToLower l = l.
Proof.
  unfold fromHeader. destruct (nonEmpty (GetHeader req "Accept-Language")); [|discriminate].
  simpl. destruct (nonEmpty (ParseAcceptLanguage _ supported)) eqn:Hne; [|discriminate].
  intros [= <-]. apply nonEmpty_true in Hne.
  repeat split; [exact Hne|now apply ParseAcceptLanguage_supported|].
  apply ParseAcceptLanguage_lower.
Qed.

Lemma resolveLanguage_sound (c : option Context) (supported : gset string)
    (fallback queryParam cookieName : string) :
  let lang := resolveLanguage c supported fallback queryParam cookieName in
  (lang ∈ supported \/ lang = fallback)
  /\ (ToLower fallback = fallback -> ToLower lang = lang)
  /\ ("" ∉ supported -> fallback <> "" -> lang <> "").
Proof.
  intros lang. subst lang.
  destruct c as [c|]; [|repeat split; auto].
  destruct (Request_ c) as [req|] eqn:Hreq;
    [|unfold resolveLanguage; rewrite Hreq; repeat split; auto].
  rewrite (resolveLanguage_first c req _ _ _ _ Hreq).
  destruct (fromQuery req supported queryParam) as [l|] eqn:Hq.
  { apply fromQuery_Some in Hq as (H1 & H2 & H3). repeat split; auto. }
  destruct (fromPath req supported) as [l|] eqn:Hp.
  { apply fromPath_Some in Hp as (H1 & H2 & H3). repeat split; auto. }
  destruct (fromCookie req supported cookieName) as [l|] eqn:Hc.
  { apply fromCookie_Some in Hc as (H2 & H3). repeat split; auto.
    intros Hemp _ ->. contradiction. }
  destruct (fromHeader req supported) as [l|] eqn:Hh; simpl.
  { apply fromHeader_Some in Hh as (H1 & H2 & H3). repeat split; auto. }
  repeat split; auto.
Qed.

(** X16: the locale that the Language middleware resolves is a member of
    its supported map or its normalised default; it is lower-case; and it
    is not empty unless the empty string was configured as a language. *)
Theorem Language_resolved_locale (cfg : LanguageConfig) (c : Context) :
  let lang := resolveLanguage (Some c) (supportedMapOf cfg)
                (normalizeDefault (Default cfg)) (queryParamOf cfg) (cookieNameOf cfg) in
  (lang ∈ supportedMapOf cfg \/ lang = normalizeDefault (Default cfg))
  /\ ToLower lang = lang
  /\ ("" ∉ supportedMapOf cfg -> lang <> "").
Proof.
  intros lang. subst lang.
  destruct (resolveLanguage_sound (Some c) (supportedMapOf cfg)
              (normalizeDefault (Default cfg)) (queryParamOf cfg) (cookieNameOf cfg))
    as (H1 & H2 & H3).
  split; [exact H1|]. split.
  - apply H2, normalizeDefault_lower.
  - intros He. apply H3; [exact He|apply normalizeDefault_nonempty].
Qed.

(** X17: when the query parameter yields no locale and the path starts
    with a supported locale segment, the resolver returns that segment,
    whatever the cookies and the headers are. *)
Theorem resolveLanguage_path_priority (c : Context) (req : Request)
    (supported : gset string) (fallback queryParam cookieName : string) :
  Request_ c = Some req ->
  (let l := ToLower (TrimSpace (Query req queryParam)) in l = "" \/ l ∉ supported) ->
  extractLanguageFromPath (URL_Path req) <> "" ->
  extractLanguageFromPath (URL_Path req) ∈ supported ->
  resolveLanguage (Some c) supported fallback queryParam cookieName
  = extractLanguageFromPath (URL_Path req).
Proof.
  intros Hreq Hq Hne Hsup.
  rewrite (resolveLanguage_first c req _ _ _ _ Hreq).
  unfold fromQuery, fromPath. rewrite (accepted_false _ _ Hq).
  apply nonEmpty_true in Hne. apply supports_true in Hsup.
  now rewrite Hne, Hsup.
Qed.

(** X18: when neither the query parameter nor the path yields a locale and
    the named cookie holds a supported locale (trimmed, lower-cased), the
    resolver returns it, whatever the Accept-Language header is. *)
Theorem resolveLanguage_cookie_priority (c : Context) (req : Request)
    (supported : gset string) (fallback queryParam cookieName v : string) :
  Request_ c = Some req ->
  (let l := ToLower (TrimSpace (Query req queryParam)) in l = "" \/ l ∉ supported) ->
  (let l := extractLanguageFromPath (URL_Path req) in l = "" \/ l ∉ supported) ->
  cookieName <> "" ->
  GetCookie req cookieName = Some v ->
  v <> "" ->
  ToLower (TrimSpace v) ∈ supported ->
  resolveLanguage (Some c) supported fallback queryParam cookieName
  = ToLower (TrimSpace v).
Proof.
  intros Hreq Hq Hp Hck Hv Hne Hsup.
  rewrite (resolveLanguage_first c req _ _ _ _ Hreq).
  unfold fromQuery, fromPath, fromCookie.
  rewrite (accepted_false _ _ Hq), (accepted_false _ _ Hp), Hv.
  apply nonEmpty_true in Hck, Hne. apply supports_true in Hsup.
  now rewrite Hck, Hne, Hsup.
Qed.

(** X19: when query parameter, path and cookie yield no locale and
    ParseAcceptLanguage finds one in the header, the resolver returns it,
    and it is a supported locale. *)
Theorem resolveLanguage_header (c : Context) (req : Request)
    (supported : gset string) (fallback queryParam cookieName : string) :
  Request_ c = Some req ->
  (let l := ToLower (TrimSpace (Query req queryParam)) in l = "" \/ l ∉ supported) ->
  (let l := extractLanguageFromPath (URL_Path req) in l = "" \/ l ∉ supported) ->
  (cookieName = "" \/
   forall v, GetCookie req cookieName = Some v ->
             v = "" \/ ToLower (TrimSpace v) ∉ supported) ->
  ParseAcceptLanguage (GetHeader req "Accept-Language") supported <> "" ->
  resolveLanguage (Some c) supported fallback queryParam cookieName
  = ParseAcceptLanguage (GetHeader req "Accept-Language") supported
  /\ ParseAcceptLanguage (GetHeader req "Accept-Language") supported ∈ supported.
Proof.
  intros Hreq Hq Hp Hck Hpal.
  split; [|now apply ParseAcceptLanguage_supported].
  rewrite (resolveLanguage_first c req _ _ _ _ Hreq).
  unfold fromQuery, fromPath.
  rewrite (accepted_false _ _ Hq), (accepted_false _ _ Hp).
  assert (Hc : fromCookie req supported cookieName = None).
  { unfold fromCookie. destruct Hck as [->|Hck]; [reflexivity|].
    destruct (nonEmpty cookieName); [|reflexivity].
    destruct (GetCookie req cookieName) as [v|]; [|reflexivity].
    destruct (Hck v eq_refl) as [->|Hns]; [reflexivity|].
    apply supports_false in Hns. rewrite Hns. now rewrite andb_false_r. }
  rewrite Hc. unfold fromHeader.
  assert (Hh : nonEmpty (GetHeader req "Accept-Language") = true).
  { apply nonEmpty_true. intros Hh. rewrite Hh in Hpal. apply Hpal.
    vm_compute. reflexivity. }
  apply nonEmpty_true in Hpal. now rewrite Hh, Hpal.
Qed.

End ResolutionOrder.

Section PathPrefix.
Context {unicode : Unicode}.

Lemma extractLanguageFromPath_prefixed (seg rest : string) :
  noSlash seg = true ->
  rest = "" \/ HasPrefix rest "/" = true ->
  extractLanguageFromPath (("/" +:+ seg) +:+ rest)
  = if (len seg =? 2) || (len seg =? 3) then ToLower seg else "".
Proof.
  intros Hseg Hrest. unfold extractLanguageFromPath.
  rewrite append_assoc, TrimPrefix_app.
  destruct (SplitN_first seg rest Hseg Hrest) as [tl ->]. reflexivity.
Qed.

End PathPrefix.

Section Accessors.
Context {unicode : Unicode} {neturl : NetURL} {strconv : Strconv}.

(** X20: after the Language middleware, the rest of the chain finds the
    resolved locale through GetLanguage, in the request's context and in
    the Content-Language header (provided the empty string is not a
    configured language); the middleware neither redirects nor aborts nor
    sets a cookie, and leaves the path as it is. *)
Theorem Language_stores_locale (cfg : LanguageConfig) (next : Handler)
    (c : Context) (req : Request) :
  Request_ c = Some req ->
  "" ∉ supportedMapOf cfg ->
  let lang := resolveLanguage (Some c) (supportedMapOf cfg)
                (normalizeDefault (Default cfg)) (queryParamOf cfg) (cookieNameOf cfg) in
  exists c' req',
    Language cfg next c = next c'
    /\ Request_ c' = Some req'
    /\ GetLanguage (Some c') = Ok lang
    /\ LanguageFromContext (reqContext req') = lang
    /\ respHeader c' !! "Content-Language" = Some lang
    /\ URL_Path req' = URL_Path req
    /\ redirected c' = redirected c /\ aborted c' = aborted c
    /\ respCookies c' = respCookies c.
Proof.
  intros Hreq Hemp lang.
  destruct (resolveLanguage_sound (Some c) (supportedMapOf cfg)
              (normalizeDefault (Default cfg)) (queryParamOf cfg) (cookieNameOf cfg))
    as (_ & Hlow & Hne).
  fold lang in Hlow, Hne.
  specialize (Hlow (normalizeDefault_lower _)).
  specialize (Hne Hemp (normalizeDefault_nonempty _)).
  apply nonEmpty_true in Hne.
  exists (negotiated c req lang),
         (mkRequest (Method req) (URL_Path req) (URL_RawQuery req) (queryValues req)
                    (cookies req) (headers req) (WithLanguage (reqContext req) lang)).
  split; [apply (Language_unfold cfg next c req Hreq)|].
  split; [reflexivity|].
  split.
  { unfold GetLanguage, negotiated, Header, withRequestContext, Set_. simpl.
    rewrite lookup_insert_eq. now rewrite Hne. }
  split.
  { simpl. unfold WithLanguage. rewrite Hne. simpl. exact Hlow. }
  split.
  { unfold negotiated, Header. simpl. rewrite Hne. apply lookup_insert_eq. }
  repeat split.
Qed.

End Accessors.

(** X21: on a context that has a request, GetLanguage returns a locale
    that is not empty, and does not panic. *)
Theorem GetLanguage_never_empty (c : Context) (req : Request) :
  Request_ c = Some req ->
  exists l, GetLanguage (Some c) = Ok l /\ l <> "".
Proof.
  intros Hreq. rewrite (GetLanguage_tiers c req Hreq).
  eexists. split; [reflexivity|].
  destruct (Keys c !! "language") as [[s|]|];
    try (destruct (nonEmpty s) eqn:Hs; [now apply nonEmpty_true|]);
    (destruct (nonEmpty (LanguageFromContext (reqContext req))) eqn:Hl;
     [now apply nonEmpty_true|discriminate]).
Qed.

Section FirstSupported.
Context {unicode : Unicode} {neturl : NetURL} {strconv : Strconv}.

Lemma better_stable (supported : gset string) (l : string) (cs : list candidate) :
  (forall c, c ∈ cs -> q c = 1%float) ->
  foldl (better supported) (l, 1%float) cs = (l, 1%float).
Proof.
  induction cs as [|c cs IH]; intros Hq; [reflexivity|].
  simpl. unfold better at 2. simpl.
  rewrite (Hq c) by (apply elem_of_cons; now left).
  replace (1 <? 1)%float with false by reflexivity.
  rewrite andb_false_r. apply IH. intros d Hd. apply Hq. apply elem_of_cons. now right.
Qed.

(** X22: when no entry of the header carries a quality other than 1 (none
    has a q parameter, say), ParseAcceptLanguage returns the first
    supported entry in the order of the header, or the empty string when
    none is supported. *)
Theorem ParseAcceptLanguage_first_supported (header : string) (supported : gset string) :
  (forall c, c ∈ candidates header -> q c = 1%float) ->
  ParseAcceptLanguage header supported
  = match List.find (fun c => supports supported (lang c)) (candidates header) with
    | Some c => lang c
    | None => ""
    end.
Proof.
  unfold ParseAcceptLanguage. generalize (candidates header) as cs.
  induction cs as [|c cs IH]; intros Hq; [reflexivity|].
  simpl. unfold better at 2. simpl.
  rewrite (Hq c) by (apply elem_of_cons; now left).
  replace ((-1) <? 1)%float with true by reflexivity.
  rewrite andb_true_r.
  destruct (supports supported (lang c)).
  - rewrite better_stable; [reflexivity|].
    intros d Hd. apply Hq. apply elem_of_cons. now right.
  - apply IH. intros d Hd. apply Hq. apply elem_of_cons. now right.
Qed.

End FirstSupported.

Section RedirectChains.
Context {unicode : Unicode} {neturl : NetURL} {strconv : Strconv}.

(** X23: no second redirect on a clean target.  Take a request that is
    redirected and whose path is empty or starts with '/'.  When the
    locale of the redirect is a supported locale of two or three bytes
    without '/', and the Location that net/http sends is the URL
    "/" + locale + path (with "?" + query) as the handler built it, that
    is, the URL is clean, then a request for the path "/" + locale + path
    passes LanguageRedirect without a redirect. *)
Theorem redirect_target_passes (cfg : LanguageRedirectConfig) (next : Handler)
    (c c2 : Context) (req req2 : Request) :
  Request_ c = Some req ->
  ~ exempt (URL_Path req) (skipPathsOf cfg) (skipExtensionsOf cfg) ->
  ~ prefixed (BuildSupportedMap (RSupported cfg)) (URL_Path req) ->
  let preferred :=
    preferredLocale (GetCookie req "lang") (GetHeader req "Accept-Language")
      (BuildSupportedMap (RSupported cfg)) (normalizeDefault (RDefault cfg)) in
  let target := redirectTarget preferred (URL_Path req) (URL_RawQuery req) in
  preferred ∈ BuildSupportedMap (RSupported cfg) ->
  len preferred = 2 \/ len preferred = 3 ->
  noSlash preferred = true ->
  URL_Path req = "" \/ HasPrefix (URL_Path req) "/" = true ->
  redirectLocation req target = target ->
  Request_ c2 = Some req2 ->
  URL_Path req2 = ("/" +:+ preferred) +:+ URL_Path req ->
  (exists c', LanguageRedirect cfg next c = Ok c'
              /\ redirected c' = Some (302, target) /\ aborted c' = true)
  /\ exists c2', LanguageRedirect cfg next c2 = next c2'
                 /\ redirected c2' = redirected c2 /\ aborted c2' = aborted c2.
Proof.
  intros Hreq He Hp preferred target Hsup Hlen Hslash Hpath Hloc Hreq2 Hpath2.
  assert (Hcfg : RSupported cfg <> []).
  { intros Hnil. rewrite Hnil in Hsup. cbn in Hsup. set_solver. }
  apply shouldSkipRedirect_not_exempt in He. apply not_prefixed_test in Hp.
  split.
  - exists (Abort (redirectedContext c req 302 target)).
    split; [|split; [|reflexivity]].
    + rewrite (LanguageRedirect_unfold cfg next c req Hcfg Hreq). cbv zeta.
      now rewrite He, Hp.
    + cbn [Abort redirectedContext redirected]. now rewrite Hloc.
  - rewrite (LanguageRedirect_unfold cfg next c2 req2 Hcfg Hreq2). cbv zeta.
    destruct (shouldSkipRedirect (URL_Path req2) _ _).
    + exists c2. repeat split.
    + rewrite Hpath2, (extractLanguageFromPath_prefixed _ _ Hslash Hpath).
      replace ((len preferred =? 2) || (len preferred =? 3)) with true
        by (symmetry; apply orb_true_iff;
            destruct Hlen as [H|H]; [left|right]; now apply Z.eqb_eq).
      rewrite (BuildSupportedMap_lower _ _ Hsup).
      assert (Hne : nonEmpty preferred = true).
      { apply nonEmpty_true. intros Hz. rewrite Hz in Hlen.
        destruct Hlen; discriminate. }
      apply supports_true in Hsup. rewrite Hne, Hsup. simpl.
      eexists. repeat split.
Qed.

(** X24: a redirect chain.  Let the normalised default be a locale without
    '/' that is not supported.  A request without cookie and
    Accept-Language header, whose path is empty or starts with '/', is
    redirected to what net/http makes of "/" + default + path; and a
    non-exempt request for the path "/" + default + path, again without
    cookie and header, is redirected once more, one prefix deeper.  When
    the two URLs are clean, so that net/http sends them as they are, the
    Locations are "/" + default + path and "/" + default + "/" + default
    + path (each with "?" + query). *)
Theorem unsupported_default_redirects_again (cfg : LanguageRedirectConfig)
    (next : Handler) (c c2 : Context) (req req2 : Request) :
  RSupported cfg <> [] ->
  Request_ c = Some req ->
  ~ exempt (URL_Path req) (skipPathsOf cfg) (skipExtensionsOf cfg) ->
  ~ prefixed (BuildSupportedMap (RSupported cfg)) (URL_Path req) ->
  GetCookie req "lang" = None -> GetHeader req "Accept-Language" = "" ->
  let d := normalizeDefault (RDefault cfg) in
  let target := redirectTarget d (URL_Path req) (URL_RawQuery req) in
  let target2 := redirectTarget d (("/" +:+ d) +:+ URL_Path req) (URL_RawQuery req2) in
  d ∉ BuildSupportedMap (RSupported cfg) ->
  noSlash d = true ->
  URL_Path req = "" \/ HasPrefix (URL_Path req) "/" = true ->
  Request_ c2 = Some req2 ->
  URL_Path req2 = ("/" +:+ d) +:+ URL_Path req ->
  GetCookie req2 "lang" = None -> GetHeader req2 "Accept-Language" = "" ->
  ~ exempt (URL_Path req2) (skipPathsOf cfg) (skipExtensionsOf cfg) ->
  (exists c', LanguageRedirect cfg next c = Ok c'
              /\ redirected c' = Some (302, redirectLocation req target))
  /\ (exists c2', LanguageRedirect cfg next c2 = Ok c2'
                  /\ redirected c2' = Some (302, redirectLocation req2 target2))
  /\ (isASCII target = true -> GoPath.Clean (pathPart target) = pathPart target ->
      redirectLocation req target = target)
  /\ (isASCII target2 = true -> GoPath.Clean (pathPart target2) = pathPart target2 ->
      redirectLocation req2 target2 = target2).
Proof.
  intros Hcfg Hreq He Hp Hck Hh d target target2 Hd Hslash Hpath Hreq2 Hpath2 Hck2 Hh2 He2.
  apply shouldSkipRedirect_not_exempt in He, He2. apply not_prefixed_test in Hp.
  split; [|split; [|split]].
  - exists (Abort (redirectedContext c req 302 target)). split; [|reflexivity].
    rewrite (LanguageRedirect_unfold cfg next c req Hcfg Hreq). cbv zeta.
    rewrite He, Hp. change LanguageCookieName with "lang". now rewrite Hck, Hh.
  - exists (Abort (redirectedContext c2 req2 302 target2)). split; [|reflexivity].
    rewrite (LanguageRedirect_unfold cfg next c2 req2 Hcfg Hreq2). cbv zeta.
    rewrite He2. change LanguageCookieName with "lang". rewrite Hck2, Hh2.
    rewrite Hpath2 at 1 2.
    rewrite (extractLanguageFromPath_prefixed _ _ Hslash Hpath).
    fold d.
    assert (Hnot : nonEmpty (if (len d =? 2) || (len d =? 3) then ToLower d else "")
                   && supports (BuildSupportedMap (RSupported cfg))
                        (if (len d =? 2) || (len d =? 3) then ToLower d else "")
                   = false).
    { destruct ((len d =? 2) || (len d =? 3)); [|reflexivity].
      unfold d. rewrite normalizeDefault_lower. fold d.
      apply supports_false in Hd. rewrite Hd. apply andb_false_r. }
    rewrite Hnot. unfold target2. now rewrite Hpath2.
  - intros Hascii Hclean.
    apply redirectLocation_clean; [exact Hascii|apply redirectTarget_rooted|exact Hclean].
  - intros Hascii Hclean.
    apply redirectLocation_clean; [exact Hascii|apply redirectTarget_rooted|exact Hclean].
Qed.

(** X25: with the default skip list, a request under /api/, /auth/,
    /oauth/ or /.well-known/ passes through LanguageRedirect untouched,
    whatever the rest of the configuration and of the request is. *)
Theorem default_skip_paths_pass (cfg : LanguageRedirectConfig) (next : Handler)
    (c : Context) (req : Request) (root rest : string) :
  SkipPaths cfg = [] ->
  root ∈ ["/api/"; "/auth/"; "/oauth/"; "/.well-known/"] ->
  Request_ c = Some req ->
  URL_Path req = root +:+ rest ->
  LanguageRedirect cfg next c = next c.
Proof.
  intros Hskip Hroot Hreq Hpath.
  destruct (RSupported cfg) as [|l ls] eqn:Hsup.
  - unfold LanguageRedirect. now rewrite Hsup.
  - assert (Hcfg : RSupported cfg <> []) by (rewrite Hsup; discriminate).
    rewrite (LanguageRedirect_unfold cfg next c req Hcfg Hreq). cbv zeta.
    replace (shouldSkipRedirect (URL_Path req) (skipPathsOf cfg) (skipExtensionsOf cfg))
      with true; [reflexivity|].
    symmetry. apply shouldSkipRedirect_exempt. left.
    exists root. split.
    + unfold skipPathsOf. rewrite Hskip. exact Hroot.
    + rewrite Hpath. apply HasPrefix_app.
Qed.

End RedirectChains.

(** *** The earlier version of language.go: no cookie, path extraction on
    request *)

Module legacy.

Record LanguageConfig : Type := mkLanguageConfig {
  Supported : list string;
  Default : string;
  QueryParam : string;
  ExtractFromPath : bool;
}.

Section WithStrconv.
Context {unicode : Unicode} {neturl : NetURL} {strconv : Strconv}.

(** The same two loops as ParseAcceptLanguage. *)
Definition parseAcceptLanguage (header : string) (supported : gset string) : string :=
  fst (foldl (better supported) ("", (-1)%float) (candidates header)).

Definition resolveLanguage (c : option Context) (supported : gset string)
    (fallback queryParam : string) (extractFromPath : bool) : string :=
  match c with
  | None => fallback
  | Some c =>
  match Request_ c with
  | None => fallback
  | Some req =>
    let lang := ToLower (TrimSpace (Query req queryParam)) in
    if nonEmpty lang && supports supported lang then lang else
    match (if extractFromPath then
             let lang := extractLanguageFromPath (URL_Path req) in
             if nonEmpty lang && supports supported lang then Some lang else None
           else None) with
    | Some lang => lang
    | None =>
      let header := GetHeader req "Accept-Language" in
      match (if nonEmpty header then
               let lang := parseAcceptLanguage header supported in
               if nonEmpty lang then Some lang else None
             else None) with
      | Some lang => lang
      | None => fallback
      end
    end
  end
  end.

Definition Language (cfg : LanguageConfig) : Middleware :=
  let supportedMap :=
    let m := BuildSupportedMap (Supported cfg) in
    if bool_decide (size m = 0%nat) then {[ "en" ]} ∪ m else m in
  let defaultLang := normalizeDefault (Default cfg) in
  let queryParam := if nonEmpty (QueryParam cfg) then QueryParam cfg else "lang" in
  fun next c =>
    let lang := resolveLanguage (Some c) supportedMap defaultLang queryParam
                  (ExtractFromPath cfg) in
    let c := Set_ c "language" (VString lang) in
    do req <- deref c;
    let ctx := WithLanguage (reqContext req) lang in
    let c := withRequestContext c req ctx in
    let c := Header c "Content-Language" lang in
    next c.

End WithStrconv.

End legacy.

Section TwoVersions.
Context {unicode : Unicode} {neturl : NetURL} {strconv : Strconv}.

Lemma legacy_resolveLanguage_no_cookie (c : option Context) (supported : gset string)
    (fallback queryParam : string) :
  legacy.resolveLanguage c supported fallback queryParam true
  = resolveLanguage c supported fallback queryParam "".
Proof.
  unfold legacy.resolveLanguage, resolveLanguage, legacy.parseAcceptLanguage,
    ParseAcceptLanguage.
  destruct c as [c|]; [|reflexivity].
  destruct (Request_ c) as [req|]; [|reflexivity].
  destruct (nonEmpty (ToLower _) && supports supported (ToLower _)); [reflexivity|].
  destruct (nonEmpty (extractLanguageFromPath _) && supports supported _); reflexivity.
Qed.

(** X26: the two versions of the middleware agree.  The earlier resolver
    with path extraction enabled is the later one with the cookie step
    disabled, and on a request without the language cookie the earlier
    Language handler (ExtractFromPath set) does what the later one does. *)
Theorem legacy_Language_agrees (cfg : LanguageConfig) (next : Handler)
    (c : Context) (req : Request) :
  Request_ c = Some req ->
  GetCookie req (cookieNameOf cfg) = None ->
  (forall c0 supported fallback queryParam,
     legacy.resolveLanguage c0 supported fallback queryParam true
     = resolveLanguage c0 supported fallback queryParam "")
  /\ legacy.Language
       (legacy.mkLanguageConfig (Supported cfg) (Default cfg) (QueryParam cfg) true)
       next c
     = Language cfg next c.
Proof.
  intros Hreq Hck. split; [apply legacy_resolveLanguage_no_cookie|].
  assert (Heq : resolveLanguage (Some c) (supportedMapOf cfg)
                  (normalizeDefault (Default cfg)) (queryParamOf cfg) (cookieNameOf cfg)
                = resolveLanguage (Some c) (supportedMapOf cfg)
                    (normalizeDefault (Default cfg)) (queryParamOf cfg) "").
  { unfold resolveLanguage. rewrite Hreq, Hck.
    now destruct (nonEmpty (cookieNameOf cfg)). }
  rewrite (Language_unfold cfg next c req Hreq), Heq.
  rewrite <- legacy_resolveLanguage_no_cookie.
  unfold legacy.Language, deref.
  cbn [legacy.Supported legacy.Default legacy.QueryParam legacy.ExtractFromPath].
  cbv zeta. cbn [Set_ Request_]. rewrite Hreq. reflexivity.
Qed.

End TwoVersions.

(** *** Concrete requests for the properties above *)

Section MoreRequests.
#[local] Existing Instance bytewise.
#[local] Existing Instance plainURLs.
#[local] Existing Instance decimalStrconv.

Example BuildSupportedMap_upper_case :
  supports (BuildSupportedMap ["EN"; "Ja"]) "ja" = true
  /\ supports (BuildSupportedMap ["EN"; "Ja"]) "Ja" = false.
Proof. split; vm_compute; reflexivity. Qed.

Lemma extractLanguageFromPath_segment_witness :
  extractLanguageFromPath (("/" +:+ "JA") +:+ "/galleries")
  = (if (len "JA" =? 2) || (len "JA" =? 3) then ToLower "JA" else "")
  /\ extractLanguageFromPath (("/" +:+ "JA") +:+ "/galleries") = "ja".
Proof.
  split; [|reflexivity].
  apply (extractLanguageFromPath_segment "JA" "/galleries"); [reflexivity|].
  right. reflexivity.
Defined.

Lemma extractLanguageFromPath_shape_witness :
  (extractLanguageFromPath "/JA/galleries" = ""
   \/ ((len (extractLanguageFromPath "/JA/galleries") = 2
        \/ len (extractLanguageFromPath "/JA/galleries") = 3)
       /\ ToLower (extractLanguageFromPath "/JA/galleries")
          = extractLanguageFromPath "/JA/galleries"))
  /\ extractLanguageFromPath "/JA/galleries" = "ja"
  /\ extractLanguageFromPath "/galleries" = "".
Proof.
  split; [|split; reflexivity].
  apply (extractLanguageFromPath_shape "/JA/galleries"). reflexivity.
Defined.

(** /ko/galleries with a cookie and a header that name other locales *)
Definition reqPathKo : Request :=
  request "/ko/galleries" "" ∅ {[ "lang" := "ja" ]} {[ "Accept-Language" := "en" ]}.

Lemma resolveLanguage_path_priority_witness :
  resolveLanguage (Some (contextOf reqPathKo)) {[ "en"; "ja"; "ko" ]}
    "en" "lang" "lang" = extractLanguageFromPath (URL_Path reqPathKo)
  /\ extractLanguageFromPath (URL_Path reqPathKo) = "ko".
Proof.
  split; [|reflexivity].
  apply (resolveLanguage_path_priority (contextOf reqPathKo) reqPathKo).
  - reflexivity.
  - left. vm_compute. reflexivity.
  - vm_compute. discriminate.
  - apply supports_true. vm_compute. reflexivity.
Defined.

(** /galleries with the cookie lang=" JA " and Accept-Language: ko *)
Definition reqCookiePadded : Request :=
  request "/galleries" "" ∅ {[ "lang" := " JA " ]} {[ "Accept-Language" := "ko" ]}.

Lemma resolveLanguage_cookie_priority_witness :
  resolveLanguage (Some (contextOf reqCookiePadded)) {[ "en"; "ja"; "ko" ]}
    "en" "lang" "lang" = ToLower (TrimSpace " JA ")
  /\ ToLower (TrimSpace " JA ") = "ja".
Proof.
  split; [|reflexivity].
  apply (resolveLanguage_cookie_priority (contextOf reqCookiePadded)
           reqCookiePadded).
  - reflexivity.
  - left. vm_compute. reflexivity.
  - left. vm_compute. reflexivity.
  - discriminate.
  - vm_compute. reflexivity.
  - discriminate.
  - apply supports_true. vm_compute. reflexivity.
Defined.

(** /test with Accept-Language: ko-KR,ko;q=0.9,en;q=0.8 *)
Definition reqHeaderKo : Request :=
  request "/test" "" ∅ ∅ {[ "Accept-Language" := "ko-KR,ko;q=0.9,en;q=0.8" ]}.

Lemma resolveLanguage_header_witness :
  (resolveLanguage (Some (contextOf reqHeaderKo)) {[ "en"; "ja"; "ko" ]}
     "en" "lang" "lang"
   = ParseAcceptLanguage (GetHeader reqHeaderKo "Accept-Language")
       {[ "en"; "ja"; "ko" ]}
   /\ ParseAcceptLanguage (GetHeader reqHeaderKo "Accept-Language")
        {[ "en"; "ja"; "ko" ]} ∈ ({[ "en"; "ja"; "ko" ]} : gset string))
  /\ ParseAcceptLanguage (GetHeader reqHeaderKo "Accept-Language")
       {[ "en"; "ja"; "ko" ]} = "ko".
Proof.
  split; [|vm_compute; reflexivity].
  apply (resolveLanguage_header (contextOf reqHeaderKo) reqHeaderKo).
  - reflexivity.
  - left. vm_compute. reflexivity.
  - left. vm_compute. reflexivity.
  - right. intros v Hv. vm_compute in Hv. discriminate.
  - vm_compute. discriminate.
Defined.

Lemma Language_stores_locale_witness :
  exists c' req',
    Language cfgEnJaKo serve (contextOf reqQueryJa) = serve c'
    /\ Request_ c' = Some req'
    /\ GetLanguage (Some c')
       = Ok (resolveLanguage (Some (contextOf reqQueryJa))
               (supportedMapOf cfgEnJaKo) (normalizeDefault (Default cfgEnJaKo))
               (queryParamOf cfgEnJaKo) (cookieNameOf cfgEnJaKo))
    /\ LanguageFromContext (reqContext req')
       = resolveLanguage (Some (contextOf reqQueryJa))
           (supportedMapOf cfgEnJaKo) (normalizeDefault (Default cfgEnJaKo))
           (queryParamOf cfgEnJaKo) (cookieNameOf cfgEnJaKo)
    /\ respHeader c' !! "Content-Language"
       = Some (resolveLanguage (Some (contextOf reqQueryJa))
                 (supportedMapOf cfgEnJaKo) (normalizeDefault (Default cfgEnJaKo))
                 (queryParamOf cfgEnJaKo) (cookieNameOf cfgEnJaKo))
    /\ URL_Path req' = URL_Path reqQueryJa
    /\ redirected c' = redirected (contextOf reqQueryJa)
    /\ aborted c' = aborted (contextOf reqQueryJa)
    /\ respCookies c' = respCookies (contextOf reqQueryJa).
Proof.
  apply (Language_stores_locale cfgEnJaKo serve
           (contextOf reqQueryJa) reqQueryJa).
  - reflexivity.
  - apply supports_false. vm_compute. reflexivity.
Defined.

Lemma GetLanguage_never_empty_witness :
  exists l, GetLanguage (Some (contextOf reqGalleries)) = Ok l /\ l <> "".
Proof. apply (GetLanguage_never_empty (contextOf reqGalleries) reqGalleries). reflexivity. Defined.

Lemma candidates_no_quality :
  candidates "fr, ja, en"
  = [mkCandidate "fr" 1%float; mkCandidate "ja" 1%float; mkCandidate "en" 1%float].
Proof. vm_compute. reflexivity. Qed.

Lemma ParseAcceptLanguage_first_supported_witness :
  ParseAcceptLanguage "fr, ja, en" {[ "en"; "ja" ]}
  = match List.find (fun c => supports {[ "en"; "ja" ]} (lang c))
            (candidates "fr, ja, en") with
    | Some c => lang c
    | None => ""
    end
  /\ ParseAcceptLanguage "fr, ja, en" {[ "en"; "ja" ]} = "ja".
Proof.
  split; [|vm_compute; reflexivity].
  apply (ParseAcceptLanguage_first_supported "fr, ja, en").
  intros c Hc. rewrite candidates_no_quality in Hc.
  repeat (apply elem_of_cons in Hc as [->|Hc]; [reflexivity|]).
  inversion Hc.
Defined.

(** /ja/galleries, the target of the redirect of reqCookieJa *)
Definition reqTargetJa : Request := request "/ja/galleries" "foo=1" {[ "foo" := "1" ]} ∅ ∅.

Lemma redirect_target_passes_witness :
  (exists c', LanguageRedirect redirectEnJaKo serve (contextOf reqCookieJa) = Ok c'
              /\ redirected c' = Some (302, "/ja/galleries?foo=1") /\ aborted c' = true)
  /\ exists c2', LanguageRedirect redirectEnJaKo serve (contextOf reqTargetJa)
                 = serve c2'
                 /\ redirected c2' = redirected (contextOf reqTargetJa)
                 /\ aborted c2' = aborted (contextOf reqTargetJa).
Proof.
  refine (redirect_target_passes redirectEnJaKo serve
            (contextOf reqCookieJa) (contextOf reqTargetJa) reqCookieJa reqTargetJa
            _ _ _ _ _ _ _ _ _ _).
  - reflexivity.
  - apply not_exempt_by_test. vm_compute. reflexivity.
  - apply not_prefixed_test. vm_compute. reflexivity.
  - apply supports_true. vm_compute. reflexivity.
  - left. vm_compute. reflexivity.
  - vm_compute. reflexivity.
  - right. reflexivity.
  - vm_compute. reflexivity.
  - reflexivity.
  - vm_compute. reflexivity.
Defined.

(** Supported ["ja"] with the default "en": /x, then /en/x *)
Definition redirectJaOnly : LanguageRedirectConfig :=
  mkLanguageRedirectConfig ["ja"] "en" [] [].

Definition reqX : Request := request "/x" "" ∅ ∅ ∅.
Definition reqEnX : Request := request "/en/x" "" ∅ ∅ ∅.

Lemma unsupported_default_redirects_again_witness :
  (exists c', LanguageRedirect redirectJaOnly serve (contextOf reqX) = Ok c'
              /\ redirected c' = Some (302, "/en/x"))
  /\ (exists c2', LanguageRedirect redirectJaOnly serve (contextOf reqEnX) = Ok c2'
                  /\ redirected c2' = Some (302, "/en/en/x"))
  /\ (isASCII "/en/x" = true -> GoPath.Clean (pathPart "/en/x") = pathPart "/en/x" ->
      redirectLocation reqX "/en/x" = "/en/x")
  /\ (isASCII "/en/en/x" = true ->
      GoPath.Clean (pathPart "/en/en/x") = pathPart "/en/en/x" ->
      redirectLocation reqEnX "/en/en/x" = "/en/en/x").
Proof.
  refine (unsupported_default_redirects_again redirectJaOnly serve
            (contextOf reqX) (contextOf reqEnX) reqX reqEnX
            _ _ _ _ _ _ _ _ _ _ _ _ _ _).
  - discriminate.
  - reflexivity.
  - apply not_exempt_by_test. vm_compute. reflexivity.
  - apply not_prefixed_test. vm_compute. reflexivity.
  - reflexivity.
  - reflexivity.
  - apply supports_false. vm_compute. reflexivity.
  - vm_compute. reflexivity.
  - right. reflexivity.
  - reflexivity.
  - vm_compute. reflexivity.
  - reflexivity.
  - reflexivity.
  - apply not_exempt_by_test. vm_compute. reflexivity.
Defined.

(** On a path that is not clean the chain is shorter than the handler's
    URLs suggest: //x is sent to /en/x. *)
Example unsupported_default_unclean_path :
  let req := request "//x" "" ∅ ∅ ∅ in
  redirectTarget "en" (URL_Path req) (URL_RawQuery req) = "/en//x"
  /\ exists c', LanguageRedirect redirectJaOnly serve (contextOf req) = Ok c'
                /\ redirected c' = Some (302, "/en/x").
Proof.
  intros req. split; [reflexivity|].
  eexists. split; vm_compute; reflexivity.
Qed.

Lemma default_skip_paths_pass_witness :
  LanguageRedirect redirectEnJaKo serve (contextOf reqApi)
  = serve (contextOf reqApi).
Proof.
  apply (default_skip_paths_pass redirectEnJaKo serve
           (contextOf reqApi) reqApi "/api/" "v1/videos").
  - reflexivity.
  - apply elem_of_cons. now left.
  - reflexivity.
  - reflexivity.
Defined.

Lemma legacy_Language_agrees_witness :
  (forall c0 supported fallback queryParam,
     legacy.resolveLanguage c0 supported fallback queryParam true
     = resolveLanguage c0 supported fallback queryParam "")
  /\ legacy.Language
       (legacy.mkLanguageConfig (Supported cfgEnJaKo) (Default cfgEnJaKo)
          (QueryParam cfgEnJaKo) true)
       serve (contextOf reqHeaderKo)
     = Language cfgEnJaKo serve (contextOf reqHeaderKo).
Proof.
  apply (legacy_Language_agrees cfgEnJaKo serve
           (contextOf reqHeaderKo) reqHeaderKo); reflexivity.
Defined.

End MoreRequests.

End middleware.
